(** * Summer Olympics medal dashboards: the filter-and-aggregate pipeline

    A shallow embedding of the data pipeline of the two dashboards of the
    repository, [src/app.py] (module [App]) and [src/unnamed/part_000]
    (its header names it [app (1).py]; module [App1]), and the properties
    of the specification checked against it.

    Modelling conventions.
    - A pandas [DataFrame] is the list of its rows, in row order; a
      [Series] with a label index is a list of (label, value) pairs.
    - A missing cell ([NaN]) is [None].  The numeric columns hold integers
      (medal counts, years, ranks); sums are exact.  Module [Csv] has the
      [Year] column with whatever a file can hold in it (a fraction, an
      infinity, a text), for the cast in the two [load_data].
    - A string is the sequence of the bytes of its UTF-8 encoding; the
      order of strings is the lexicographic order of the bytes, which is
      the order of the code points.
    - The percentage column of the conversion view is computed in binary64
      floating point, with the kernel's primitive floats.
    - An exception that ends the script is a [Raise] of the [result]
      monad. *)

From Stdlib Require Import ZArith List Bool Lia.
From Stdlib Require Import Ascii String.
From Stdlib Require Import Sorted Permutation RelationClasses.
From Stdlib Require Import OrdersEx.
From Stdlib Require DecimalString DecimalZ DecimalFacts.
From Stdlib Require Import Floats Uint63.
Import ListNotations.

Open Scope Z_scope.

(* A decimal float constant denotes the nearest binary64 number. *)
Set Warnings "-inexact-float".

(* ================================================================== *)
(** * Exceptions *)

Inductive exn : Type :=
| ValueError          (* [idxmax] of an empty Series; [int] of a text *)
| IntCastingNaNError. (* [astype(int)] of a column holding NaN *)

Inductive result (A : Type) : Type :=
| Ok (a : A)
| Raise (e : exn).

Arguments Ok {A} a.
Arguments Raise {A} e.

Definition bind {A B : Type} (m : result A) (k : A -> result B) : result B :=
  match m with
  | Ok a => k a
  | Raise e => Raise e
  end.

Notation "x <- m ;; k" := (bind m (fun x => k))
  (at level 61, m at next level, right associativity).

(* ================================================================== *)
(** * Python [str] methods used by the cleaning step *)

Module Str.

Open Scope char_scope.

(** A [str] is held as the bytes of its UTF-8 encoding.  [str.strip()]
    removes the characters Python takes for whitespace.  Those of one
    byte: TAB, LF, VT, FF, CR, the four separators FS, GS, RS, US and the
    space. *)
Definition isspace (c : ascii) : bool :=
  let n := N_of_ascii c in
  ((9 <=? n) && (n <=? 13) || (28 <=? n) && (n <=? 32))%N.

(** Those of two bytes: U+0085 (C2 85) and the no-break space U+00A0
    (C2 A0). *)
Definition isspace2 (a b : ascii) : bool :=
  let x := N_of_ascii a in
  let y := N_of_ascii b in
  ((x =? 194) && ((y =? 133) || (y =? 160)))%N.

(** Those of three bytes: U+1680 (E1 9A 80), U+2000 to U+200A
    (E2 80 80 to E2 80 8A), U+2028, U+2029, U+202F (E2 80 A8, A9, AF),
    U+205F (E2 81 9F) and U+3000 (E3 80 80). *)
Definition isspace3 (a b c : ascii) : bool :=
  let x := N_of_ascii a in
  let y := N_of_ascii b in
  let z := N_of_ascii c in
  ((x =? 225) && (y =? 154) && (z =? 128)
   || (x =? 226) && (y =? 128)
      && ((128 <=? z) && (z <=? 138) || (z =? 168) || (z =? 169) || (z =? 175))
   || (x =? 226) && (y =? 129) && (z =? 159)
   || (x =? 227) && (y =? 128) && (z =? 128))%N.

(** The string is one whitespace character. *)
Definition is_space (s : string) : bool :=
  match s with
  | String a EmptyString => isspace a
  | String a (String b EmptyString) => isspace2 a b
  | String a (String b (String c EmptyString)) => isspace3 a b c
  | _ => false
  end.

(** [str.lstrip()]: the whitespace characters in front are dropped, one
    after the other. *)
Fixpoint lstrip (s : string) : string :=
  match s with
  | EmptyString => EmptyString
  | String a s1 =>
      if isspace a then lstrip s1 else
      match s1 with
      | EmptyString => s
      | String b s2 =>
          if isspace2 a b then lstrip s2 else
          match s2 with
          | EmptyString => s
          | String c s3 => if isspace3 a b c then lstrip s3 else s
          end
      end
  end.

(** [str.rstrip()]: the whitespace characters at the end are dropped.
    The rest of the string is done first; when what it leaves, with the
    byte in front of it, is one whitespace character, nothing is left. *)
Fixpoint rstrip (s : string) : string :=
  match s with
  | EmptyString => EmptyString
  | String c s' =>
      let t := String c (rstrip s') in
      if is_space t then EmptyString else t
  end.

Definition strip (s : string) : string := lstrip (rstrip s).

(** [str.lower()] on the letters of ASCII.  Python also maps letters
    outside ASCII, never onto a letter of ASCII but for the Kelvin sign
    (onto "k"), so that whether the lower-cased string is one of "nan",
    "none", "", "n/a", the only use the dashboards make of it, is decided
    by the letters of ASCII. *)
Definition lower_char (c : ascii) : ascii :=
  let n := N_of_ascii c in
  if ((65 <=? n) && (n <=? 90))%N then ascii_of_N (n + 32) else c.

Fixpoint lower (s : string) : string :=
  match s with
  | EmptyString => EmptyString
  | String c s' => String (lower_char c) (lower s')
  end.

(** [x in xs] for a list of strings. *)
Definition isin (xs : list string) (x : string) : bool :=
  existsb (String.eqb x) xs.

End Str.

(* ================================================================== *)
(** * Tables *)

(** A row of the frame [pd.read_csv] returns, the numeric columns read as
    numbers ([pd.to_numeric(..., errors="coerce")] in part_000): a cell
    that is blank or is not a number is missing.  A [Country] cell is
    missing when the CSV cell is blank or one of the markers [read_csv]
    takes for NA ("nan", "n/a", "NaN", ...); any other text, "none" or
    " nan" for instance, is a string.  The [Year] fields of the file are
    integers or empty here; module [Csv] below takes any. *)
Module Raw.
Record Row : Type := {
  Country : option string;
  Year    : option Z;
  Rank    : option Z;
  Golds   : option Z;
  Silvers : option Z;
  Bronzes : option Z;
  Medals  : option Z
}.
End Raw.

(** A row of the table [load_data] returns: [Year] is an [int]. *)
Record Row : Type := {
  Country : option string;
  Year    : Z;
  Rank    : option Z;
  Golds   : option Z;
  Silvers : option Z;
  Bronzes : option Z;
  Medals  : option Z
}.

Definition DataFrame : Type := list Row.

(** The radio button [medal_type] names the column that drives the
    rankings. *)
Inductive MedalType : Type := MGolds | MSilvers | MBronzes | MMedals.

Definition column (m : MedalType) : Row -> option Z :=
  match m with
  | MGolds => Golds
  | MSilvers => Silvers
  | MBronzes => Bronzes
  | MMedals => Medals
  end.

Definition with_year (r : Raw.Row) (y : Z) : Row :=
  {| Country := Raw.Country r; Year := y; Rank := Raw.Rank r;
     Golds := Raw.Golds r; Silvers := Raw.Silvers r;
     Bronzes := Raw.Bronzes r; Medals := Raw.Medals r |}.

(** [df["Year"].astype(int)] on a column of integers and NaN: raises when
    a [Year] is missing.  [Csv.astype_int] below is the cast on any
    column. *)
Fixpoint astype_int (raw : list Raw.Row) : result DataFrame :=
  match raw with
  | [] => Ok []
  | r :: raw' =>
      match Raw.Year r with
      | None => Raise IntCastingNaNError
      | Some y => df <- astype_int raw' ;; Ok (with_year r y :: df)
      end
  end.

(** [Series.sum()]: missing values are skipped.  The sum is exact; that
    of an [int64] column wraps around at [2^63], far above any sum of
    medal counts. *)
Definition sum (s : list (option Z)) : Z :=
  fold_right (fun x acc => match x with Some v => v + acc | None => acc end) 0 s.

Definition isna {A : Type} (x : option A) : bool :=
  match x with None => true | Some _ => false end.

Definition notna {A : Type} (x : option A) : bool := negb (isna x).

(* ================================================================== *)
(** * The pandas operations the dashboards use *)

Module Pandas.

Section Keys.
Context {K : Type} (cmp : K -> K -> comparison).

(** Insertion in a sorted list without duplicates. *)
Fixpoint add_key (k : K) (ks : list K) : list K :=
  match ks with
  | [] => [k]
  | k' :: ks' =>
      match cmp k k' with
      | Lt => k :: ks
      | Eq => ks
      | Gt => k' :: add_key k ks'
      end
  end.

(** The distinct values of a column, sorted. *)
Definition unique_sorted (ks : list K) : list K :=
  fold_right add_key [] ks.

Definition key_eqb (a b : K) : bool :=
  match cmp a b with Eq => true | _ => false end.

Definition has_key {R : Type} (key : R -> option K) (k : K) (r : R) : bool :=
  match key r with
  | Some k' => key_eqb k' k
  | None => false
  end.

(** The keys of the rows of a frame, the missing ones left out. *)
Definition keys_of {R : Type} (key : R -> option K) (df : list R) : list K :=
  flat_map (fun r => match key r with Some k => [k] | None => [] end) df.

(** [df.groupby(key)]: one group per distinct key, in sorted key
    order ([sort=True]); rows whose key is missing belong to no group
    ([dropna=True]); a group keeps its rows in frame order. *)
Definition groupby {R : Type} (key : R -> option K) (df : list R)
  : list (K * list R) :=
  map (fun k => (k, filter (has_key key k) df))
      (unique_sorted (keys_of key df)).

(** [s[k]] for a Series indexed by [K]. *)
Fixpoint lookup {V : Type} (k : K) (s : list (K * V)) : option V :=
  match s with
  | [] => None
  | (k', v) :: s' => if key_eqb k' k then Some v else lookup k s'
  end.

(** Position of a label in an index. *)
Fixpoint get_loc (k : K) (ks : list K) : option nat :=
  match ks with
  | [] => None
  | k' :: ks' =>
      if key_eqb k' k then Some O
      else option_map S (get_loc k ks')
  end.
End Keys.

Definition cmp_pair {A B : Type} (ca : A -> A -> comparison)
    (cb : B -> B -> comparison) (x y : A * B) : comparison :=
  match ca (fst x) (fst y) with
  | Eq => cb (snd x) (snd y)
  | c => c
  end.

(** [groupby(key)[col].sum()]. *)
Definition groupby_sum {K R : Type} (cmp : K -> K -> comparison)
    (key : R -> option K) (col : R -> option Z) (df : list R)
  : list (K * Z) :=
  map (fun g => (fst g, sum (map col (snd g)))) (groupby cmp key df).

Section Sort.
Context {A : Type} (leb : A -> A -> bool).

(** Stable insertion: [x], which comes before every element of [l] in
    the frame, goes in front of the first element it may precede. *)
Fixpoint insert (x : A) (l : list A) : list A :=
  match l with
  | [] => [x]
  | y :: l' => if leb x y then x :: l else y :: insert x l'
  end.

Definition sort (l : list A) : list A := fold_right insert [] l.
End Sort.

(** [sort_values(by)] on an integer column.  Rows of equal value keep
    their frame order, as under a stable sort; pandas leaves their order
    to numpy's default sort, and no statement below depends on it. *)
Definition sort_values {A : Type} (by_ : A -> Z) (ascending : bool)
    (df : list A) : list A :=
  if ascending then sort (fun a b => by_ a <=? by_ b) df
  else sort (fun a b => by_ b <=? by_ a) df.

(** [Series.nlargest(n)] on an integer Series ([keep="first"]): empty
    when [n <= 0]; otherwise the [n] largest values in descending order,
    and, when values are equal where the selection ends, the entries that
    come first in the Series (pandas selects with a stable sort). *)
Definition nlargest {A : Type} (by_ : A -> Z) (n : Z) (s : list A) : list A :=
  if n <=? 0 then []
  else firstn (Z.to_nat n) (sort_values by_ false s).

(** [Series.idxmax()]: the label of the first occurrence of the maximum;
    raises [ValueError] on an empty Series. *)
Fixpoint idxmax_from {K : Type} (best : K * Z) (s : list (K * Z)) : K :=
  match s with
  | [] => fst best
  | x :: s' => if snd best <? snd x then idxmax_from x s'
               else idxmax_from best s'
  end.

Definition idxmax {K : Type} (s : list (K * Z)) : result K :=
  match s with
  | [] => Raise ValueError
  | x :: s' => Ok (idxmax_from x s')
  end.

(** [Series.dropna()] and [Series.nunique()]. *)
Definition dropna {A : Type} (s : list (option A)) : list A :=
  flat_map (fun x => match x with Some a => [a] | None => [] end) s.

Definition nunique {A : Type} (dec : forall x y : A, {x = y} + {x <> y})
    (s : list (option A)) : nat :=
  List.length (nodup dec (dropna s)).

(** A two-dimensional frame with labelled rows and columns, as
    [unstack] builds it; a cell is missing ([None]) or a number. *)
Record Frame : Type := {
  index   : list string;
  columns : list string;
  data    : list (list (option Z))
}.

Definition str_cmp : string -> string -> comparison := String_as_OT.compare.

(** [s.unstack(fill_value=fill)] for a Series indexed by (row label,
    column label): the second level becomes the columns, both levels
    sorted, cells without an entry filled with [fill]. *)
Definition unstack (fill : Z) (s : list ((string * string) * Z)) : Frame :=
  let idx := unique_sorted str_cmp (map (fun e => fst (fst e)) s) in
  let cols := unique_sorted str_cmp (map (fun e => snd (fst e)) s) in
  {| index := idx;
     columns := cols;
     data := map (fun c =>
               map (fun d =>
                 match lookup (cmp_pair str_cmp str_cmp) (c, d) s with
                 | Some v => Some v
                 | None => Some fill
                 end) cols) idx |}.

(** [frame.reindex(order)]: the rows in the order of [order]; a label
    that is not in the index gives a row of missing cells. *)
Definition reindex (f : Frame) (order : list string) : Frame :=
  {| index := order;
     columns := columns f;
     data := map (fun c =>
               match get_loc str_cmp c (index f) with
               | Some i => nth i (data f) []
               | None => map (fun _ => None) (columns f)
               end) order |}.

(** [frame.loc[c, d]]: [None] is a [KeyError]. *)
Definition loc (f : Frame) (c d : string) : option (option Z) :=
  match get_loc str_cmp c (index f), get_loc str_cmp d (columns f) with
  | Some i, Some j => nth_error (nth i (data f) []) j
  | _, _ => None
  end.

End Pandas.

(* ================================================================== *)
(** * Binary64 arithmetic of the percentage column *)

Module F64.

(** An [int64] read as a [float64] (the sums of counts are far below
    [2^63]). *)
Definition of_Z (z : Z) : float :=
  if z <? 0 then PrimFloat.opp (PrimFloat.of_uint63 (Uint63.of_Z (- z)))
  else PrimFloat.of_uint63 (Uint63.of_Z z).

Definition two52 : float := 4503599627370496%float.

(** [numpy.rint]: the nearest integer, ties to even.  Below [2^52] in
    magnitude, adding and removing [2^52] rounds to an integer; from
    [2^52] on every binary64 number is an integer. *)
Definition rint (x : float) : float :=
  if PrimFloat.ltb (PrimFloat.abs x) two52 then
    let r := PrimFloat.sub (PrimFloat.add (PrimFloat.abs x) two52) two52 in
    if PrimFloat.get_sign x then PrimFloat.opp r else r
  else x.

(** [Series.round(1)], which numpy computes as [rint(x * 10) / 10]. *)
Definition round1 (x : float) : float :=
  PrimFloat.div (rint (PrimFloat.mul x 10%float)) 10%float.

Section SortFloat.
Context {A : Type} (by_ : A -> float).

Definition isnan (a : A) : bool := PrimFloat.is_nan (by_ a).

(** [sort_values(by)] on a float column: the rows without NaN sorted,
    those with NaN last ([na_position="last"]). *)
Definition sort_values (ascending : bool) (df : list A) : list A :=
  let ok := filter (fun a => negb (isnan a)) df in
  let na := filter isnan df in
  (if ascending then Pandas.sort (fun a b => PrimFloat.leb (by_ a) (by_ b)) ok
   else Pandas.sort (fun a b => PrimFloat.leb (by_ b) (by_ a)) ok) ++ na.

(** [DataFrame.nlargest(n, by)] on a float column ([keep="first"]). *)
Definition nlargest (n : Z) (df : list A) : list A :=
  if n <=? 0 then []
  else firstn (Z.to_nat n) (sort_values false df).
End SortFloat.

End F64.

(* ================================================================== *)
(** * The widgets of the sidebar *)

Record Params : Type := {
  year_range : Z * Z;                 (* select_slider over the years *)
  top_n : Z;                          (* slider "Top N Countries" *)
  selected_countries : list string;   (* multiselect "Spotlight Countries" *)
  medal_type : MedalType              (* radio "Medal Type" *)
}.

(** [dff["Country"].isin(names)]: a missing country is in no list. *)
Definition country_isin (names : list string) (r : Row) : bool :=
  match Country r with
  | Some c => Str.isin names c
  | None => false
  end.

(** [str(n)] for an integer. *)
Definition str_of_Z (n : Z) : string := DecimalString.NilZero.string_of_int (Z.to_int n).

(** The label of the decade that starts in the year [d]. *)
Definition Decade_label (d : Z) : string := (str_of_Z d ++ "s")%string.

(** [(dff["Year"] // 10 * 10).astype(str) + "s"]. *)
Definition Decade (r : Row) : string := Decade_label (Year r / 10 * 10).

(** The key of [groupby(["Country", "Decade"])]. *)
Definition Country_Decade (r : Row) : option (string * string) :=
  option_map (fun c => (c, Decade r)) (Country r).

(** The order of the keys (Country, Decade). *)
Definition cmp2 : string * string -> string * string -> comparison :=
  Pandas.cmp_pair Pandas.str_cmp Pandas.str_cmp.

(** The key of [groupby(["Year", "Country"])]. *)
Definition Year_Country (r : Row) : option (Z * string) :=
  option_map (fun c => (Year r, c)) (Country r).

Definition sum3 (g : list Row) : Z * Z * Z :=
  (sum (map Golds g), sum (map Silvers g), sum (map Bronzes g)).

Definition sum4 (g : list Row) : Z * Z * Z * Z :=
  (sum (map Golds g), sum (map Silvers g), sum (map Bronzes g),
   sum (map Medals g)).

Definition by_country : DataFrame -> list (string * list Row) :=
  Pandas.groupby Pandas.str_cmp Country.

Definition sum_by_country (col : Row -> option Z) : DataFrame -> list (string * Z) :=
  Pandas.groupby_sum Pandas.str_cmp Country col.

(** The order of [sort_values(["Year", "Rank"])]: by Year, then by Rank
    with the missing ranks last ([na_position="last"]); the sort on
    several columns is stable. *)
Definition rank_leb (a b : option Z) : bool :=
  match a, b with
  | Some x, Some y => x <=? y
  | Some _, None => true
  | None, Some _ => false
  | None, None => true
  end.

Definition year_rank_leb (a b : Row) : bool :=
  (Year a <? Year b) || ((Year a =? Year b) && rank_leb (Rank a) (Rank b)).

(* ================================================================== *)
(** * The dashboard of [src/app.py] *)

Module App.

(** [src/app.py], [load_data]: the column names are stripped and [Year]
    is cast; no row is touched.  (On a [Year] column of integers and
    empty fields; [AppCsv.load_data] below takes any.) *)
Definition load_data (csv : list Raw.Row) : result DataFrame :=
  astype_int csv.

(** [df = load_data()] has run; what follows is the script below it. *)

(** [years = sorted(df["Year"].unique())], the options of the year slider. *)
Definition years (df : DataFrame) : list Z :=
  Pandas.unique_sorted Z.compare (map Year df).

(** [value=(years[0], years[-1])], the range the slider starts with;
    [years[0]] is an [IndexError] on a table without rows ([None]). *)
Definition default_year_range (df : DataFrame) : option (Z * Z) :=
  match years df with
  | [] => None
  | y :: ys => Some (y, last ys y)
  end.

(** [top_n = st.sidebar.slider("Top N Countries", min_value=5,
    max_value=30, value=10, step=5)]: the sizes the slider can deliver. *)
Definition top_n_values : list Z := [5; 10; 15; 20; 25; 30].

(** What the two widgets can deliver over the table [df]: a size of the
    slider, and a range of the [select_slider], whose bounds are two of
    its options [years], the lower one first. *)
Definition delivered (p : Params) (df : DataFrame) : Prop :=
  In (top_n p) top_n_values
  /\ In (fst (year_range p)) (years df)
  /\ In (snd (year_range p)) (years df)
  /\ fst (year_range p) <= snd (year_range p).

(** [all_countries = sorted(df["Country"].unique())], the options of the
    multiselect.  [unique] keeps one NaN for the rows without a country;
    [sorted] has to compare it with a name as soon as there is one, which
    is a [TypeError] ([None]); alone it stays as it is. *)
Definition all_countries (df : DataFrame) : option (list (option string)) :=
  let names :=
    Pandas.unique_sorted Pandas.str_cmp (Pandas.keys_of Country df) in
  if forallb (fun r => notna (Country r)) df then Some (map Some names)
  else match names with
       | [] => Some [None]
       | _ :: _ => None
       end.

Definition mask (year_range : Z * Z) (r : Row) : bool :=
  (fst year_range <=? Year r) && (Year r <=? snd year_range).

Definition dff (year_range : Z * Z) (df : DataFrame) : DataFrame :=
  filter (mask year_range) df.

Definition total_games (dff : DataFrame) : nat :=
  Pandas.nunique Z.eq_dec (map (fun r => Some (Year r)) dff).

Definition total_nations (dff : DataFrame) : nat :=
  Pandas.nunique string_dec (map Country dff).

Definition total_medals (dff : DataFrame) : Z := sum (map Medals dff).

Definition top_country (dff : DataFrame) : result string :=
  Pandas.idxmax (sum_by_country Medals dff).

Definition top_df (medal_type : MedalType) (top_n : Z) (dff : DataFrame)
  : list (string * Z) :=
  Pandas.sort_values snd true
    (Pandas.nlargest snd top_n (sum_by_country (column medal_type) dff)).

Definition top_names (top_n : Z) (dff : DataFrame) : list string :=
  map fst (Pandas.nlargest snd top_n (sum_by_country Medals dff)).

Definition comp_df (top_n : Z) (dff : DataFrame) : list (string * (Z * Z * Z)) :=
  Pandas.sort_values (fun e => fst (fst (snd e))) false
    (map (fun g => (fst g, sum3 (snd g)))
         (by_country (filter (country_isin (top_names top_n dff)) dff))).

Definition trend_df (selected_countries : list string) (medal_type : MedalType)
    (dff : DataFrame) : list ((Z * string) * Z) :=
  Pandas.groupby_sum (Pandas.cmp_pair Z.compare Pandas.str_cmp) Year_Country
    (column medal_type) (filter (country_isin selected_countries) dff).

(** Chart 3: the line chart of [trend_df], or the [st.info] note when no
    country is selected ([None]). *)
Definition chart3 (selected_countries : list string) (medal_type : MedalType)
    (dff : DataFrame) : option (list ((Z * string) * Z)) :=
  match selected_countries with
  | [] => None
  | _ => Some (trend_df selected_countries medal_type dff)
  end.

Definition scatter_df (dff : DataFrame) : list (string * (Z * Z * Z * Z)) :=
  map (fun g => (fst g, sum4 (snd g))) (by_country dff).

Definition top20 (dff : DataFrame) : list string :=
  map fst (Pandas.nlargest snd 20 (sum_by_country Medals dff)).

Definition heat_df (dff : DataFrame) : Pandas.Frame :=
  Pandas.unstack 0
    (Pandas.groupby_sum (Pandas.cmp_pair Pandas.str_cmp Pandas.str_cmp)
       Country_Decade Medals (filter (country_isin (top20 dff)) dff)).

(** The expander "View Filtered Raw Data":
    [dff.sort_values(["Year", "Rank"]).reset_index(drop=True)]. *)
Definition raw_table (dff : DataFrame) : DataFrame :=
  Pandas.sort year_rank_leb dff.

Record KPI : Type := {
  kpi_games : nat; kpi_nations : nat; kpi_medals : Z; kpi_leader : string
}.

Record Views : Type := {
  v_top : list (string * Z);
  v_comp : list (string * (Z * Z * Z));
  v_trend : option (list ((Z * string) * Z));
  v_scatter : list (string * (Z * Z * Z * Z));
  v_heat : Pandas.Frame
}.

(** The charts, in the order the script draws them from [dff]. *)
Definition views (p : Params) (dff : DataFrame) : Views :=
  {| v_top := top_df (medal_type p) (top_n p) dff;
     v_comp := comp_df (top_n p) dff;
     v_trend := chart3 (selected_countries p) (medal_type p) dff;
     v_scatter := scatter_df dff;
     v_heat := heat_df dff |}.

(** The KPI row comes first; [idxmax] may end the script there. *)
Definition kpis (dff : DataFrame) : result KPI :=
  leader <- top_country dff ;;
  Ok {| kpi_games := total_games dff; kpi_nations := total_nations dff;
        kpi_medals := total_medals dff; kpi_leader := leader |}.

(** One run of the script below [df = load_data()]. *)
Definition dashboard (p : Params) (df : DataFrame) : result (KPI * Views) :=
  let dff := dff (year_range p) df in
  k <- kpis dff ;;
  Ok (k, views p dff).

End App.

(* ================================================================== *)
(** * The dashboard of [src/unnamed/part_000] *)

Module App1.

Definition placeholders : list string :=
  ["nan"; "none"; ""; "n/a"]%string.

Definition strip_country (r : Raw.Row) : Raw.Row :=
  {| Raw.Country := option_map Str.strip (Raw.Country r);
     Raw.Year := Raw.Year r; Raw.Rank := Raw.Rank r;
     Raw.Golds := Raw.Golds r; Raw.Silvers := Raw.Silvers r;
     Raw.Bronzes := Raw.Bronzes r; Raw.Medals := Raw.Medals r |}.

Definition is_placeholder (r : Raw.Row) : bool :=
  match Raw.Country r with
  | Some c => Str.isin placeholders (Str.lower c)
  | None => false
  end.

(** [src/unnamed/part_000], [load_data], statement by statement.  (On a
    [Year] column of integers and empty fields; [App1Csv.load_data] below
    takes any.) *)
Definition load_data (csv : list Raw.Row) : result DataFrame :=
  (* df = df.dropna(subset=["Country"]) *)
  let df := filter (fun r => notna (Raw.Country r)) csv in
  (* df["Country"] = df["Country"].astype(str).str.strip() *)
  let df := map strip_country df in
  (* df = df[~df["Country"].str.lower().isin(["nan","none","","n/a"])] *)
  let df := filter (fun r => negb (is_placeholder r)) df in
  (* df = df.dropna(subset=["Year", "Medals"]) *)
  let df := filter (fun r => notna (Raw.Year r) && notna (Raw.Medals r)) df in
  (* df["Year"] = df["Year"].astype(int) *)
  astype_int df.

(** [df = load_data()] has run; what follows is the script below it. *)

Definition years (df : DataFrame) : list Z :=
  Pandas.unique_sorted Z.compare (map Year df).

(** [value=(years[0], years[-1])], the range the slider starts with;
    [years[0]] is an [IndexError] on a table without rows ([None]). *)
Definition default_year_range (df : DataFrame) : option (Z * Z) :=
  match years df with
  | [] => None
  | y :: ys => Some (y, last ys y)
  end.

(** [top_n = st.slider("Top N Countries", min_value=5, max_value=25,
    value=10, step=5)]: the sizes the slider can deliver. *)
Definition top_n_values : list Z := [5; 10; 15; 20; 25].

(** What the two widgets can deliver over the table [df], as in
    [src/app.py]. *)
Definition delivered (p : Params) (df : DataFrame) : Prop :=
  In (top_n p) top_n_values
  /\ In (fst (year_range p)) (years df)
  /\ In (snd (year_range p)) (years df)
  /\ fst (year_range p) <= snd (year_range p).

(** [all_countries = sorted(df["Country"].unique())], as in [src/app.py]. *)
Definition all_countries (df : DataFrame) : option (list (option string)) :=
  let names :=
    Pandas.unique_sorted Pandas.str_cmp (Pandas.keys_of Country df) in
  if forallb (fun r => notna (Country r)) df then Some (map Some names)
  else match names with
       | [] => Some [None]
       | _ :: _ => None
       end.



Definition dff (year_range : Z * Z) (df : DataFrame) : DataFrame :=
  filter (fun r => (fst year_range <=? Year r) && (Year r <=? snd year_range)) df.

(** The four KPI cards. *)
Definition k1 (dff : DataFrame) : nat :=
  Pandas.nunique Z.eq_dec (map (fun r => Some (Year r)) dff).

Definition k2 (dff : DataFrame) : nat :=
  Pandas.nunique string_dec (map Country dff).

Definition k3 (dff : DataFrame) : Z := sum (map Medals dff).

Definition k4 (dff : DataFrame) : result string :=
  Pandas.idxmax (sum_by_country Medals dff).

Definition bar_df (medal_type : MedalType) (top_n : Z) (dff : DataFrame)
  : list (string * Z) :=
  Pandas.sort_values snd true
    (Pandas.nlargest snd top_n (sum_by_country (column medal_type) dff)).

Definition top_names (top_n : Z) (dff : DataFrame) : list string :=
  map fst (Pandas.nlargest snd top_n (sum_by_country Medals dff)).

Definition comp_df (top_n : Z) (dff : DataFrame) : list (string * (Z * Z * Z)) :=
  Pandas.sort_values (fun e => fst (fst (snd e))) false
    (map (fun g => (fst g, sum3 (snd g)))
         (by_country (filter (country_isin (top_names top_n dff)) dff))).

Definition trend_df (selected_countries : list string) (medal_type : MedalType)
    (dff : DataFrame) : list ((Z * string) * Z) :=
  Pandas.groupby_sum (Pandas.cmp_pair Z.compare Pandas.str_cmp) Year_Country
    (column medal_type) (filter (country_isin selected_countries) dff).

Definition chart3 (selected_countries : list string) (medal_type : MedalType)
    (dff : DataFrame) : option (list ((Z * string) * Z)) :=
  match selected_countries with
  | [] => None
  | _ => Some (trend_df selected_countries medal_type dff)
  end.

(** [s_df = s_df[s_df["Bronzes"] > 0]] drops the bubbles of size zero. *)
Definition s_df (dff : DataFrame) : list (string * (Z * Z * Z * Z)) :=
  filter (fun e => 0 <? snd (fst (snd e)))
    (map (fun g => (fst g, sum4 (snd g))) (by_country dff)).

Definition top20_idx (dff : DataFrame) : list string :=
  map fst (Pandas.nlargest snd 20 (sum_by_country Medals dff)).

Definition row_order (dff : DataFrame) : list string :=
  map fst (Pandas.sort_values snd false
             (sum_by_country Medals (filter (country_isin (top20_idx dff)) dff))).

Definition heat_df (dff : DataFrame) : Pandas.Frame :=
  Pandas.reindex
    (Pandas.unstack 0
       (Pandas.groupby_sum (Pandas.cmp_pair Pandas.str_cmp Pandas.str_cmp)
          Country_Decade Medals (filter (country_isin (top20_idx dff)) dff)))
    (row_order dff).

Definition pie_df (medal_type : MedalType) (dff : DataFrame) : list (string * Z) :=
  Pandas.nlargest snd 10 (sum_by_country (column medal_type) dff).

(** A row of [conv_df]. *)
Record Conv : Type := {
  conv_Country : string;
  conv_Golds : Z;
  conv_Medals : Z;
  Gold_pct : float   (* the column "Gold %" *)
}.

(** [dff.groupby("Country")[["Golds", "Medals"]].sum().reset_index()]. *)
Definition conv_sums (dff : DataFrame) : list (string * (Z * Z)) :=
  map (fun g => (fst g, (sum (map Golds (snd g)), sum (map Medals (snd g)))))
      (by_country dff).

(** [conv_df[conv_df["Medals"] >= 20]]. *)
Definition conv_kept (dff : DataFrame) : list (string * (Z * Z)) :=
  filter (fun e => 20 <=? snd (snd e)) (conv_sums dff).

(** [(conv_df["Golds"] / conv_df["Medals"] * 100).round(1)]. *)
Definition gold_pct (golds medals : Z) : float :=
  F64.round1
    (PrimFloat.mul (PrimFloat.div (F64.of_Z golds) (F64.of_Z medals)) 100%float).

Definition conv_rows (dff : DataFrame) : list Conv :=
  map (fun e => {| conv_Country := fst e;
                   conv_Golds := fst (snd e);
                   conv_Medals := snd (snd e);
                   Gold_pct := gold_pct (fst (snd e)) (snd (snd e)) |})
      (conv_kept dff).

Definition conv_df (top_n : Z) (dff : DataFrame) : list Conv :=
  F64.sort_values Gold_pct true (F64.nlargest Gold_pct top_n (conv_rows dff)).

(** The expander "View Raw Filtered Data":
    [dff[cols].sort_values(["Year", "Rank"]).reset_index(drop=True)];
    [cols] are the seven columns of a row. *)
Definition raw_table (dff : DataFrame) : DataFrame :=
  Pandas.sort year_rank_leb dff.

Record KPI : Type := {
  kpi_games : nat; kpi_nations : nat; kpi_medals : Z; kpi_leader : string
}.

Record Views : Type := {
  v_bar : list (string * Z);
  v_comp : list (string * (Z * Z * Z));
  v_trend : option (list ((Z * string) * Z));
  v_scatter : list (string * (Z * Z * Z * Z));
  v_heat : Pandas.Frame;
  v_pie : list (string * Z);
  v_conv : list Conv
}.

Definition views (p : Params) (dff : DataFrame) : Views :=
  {| v_bar := bar_df (medal_type p) (top_n p) dff;
     v_comp := comp_df (top_n p) dff;
     v_trend := chart3 (selected_countries p) (medal_type p) dff;
     v_scatter := s_df dff;
     v_heat := heat_df dff;
     v_pie := pie_df (medal_type p) dff;
     v_conv := conv_df (top_n p) dff |}.

Definition kpis (dff : DataFrame) : result KPI :=
  leader <- k4 dff ;;
  Ok {| kpi_games := k1 dff; kpi_nations := k2 dff;
        kpi_medals := k3 dff; kpi_leader := leader |}.

Definition dashboard (p : Params) (df : DataFrame) : result (KPI * Views) :=
  let dff := dff (year_range p) df in
  k <- kpis dff ;;
  Ok (k, views p dff).

End App1.

(* ================================================================== *)
(** * [load_data] on any [Year] column *)

(** The tables above hold a [Year] that is an integer or missing.  A
    file can hold more in that column, and the cast [astype(int)] tells
    the cases apart: here is the column as [pd.read_csv] finds it, and
    the two [load_data] on it.  On a file whose [Year] fields are
    integers or empty they are [App.load_data] and [App1.load_data]. *)
Module Csv.

(** A field of the [Year] column.  [read_csv] gives the column the dtype
    [int64] when every field is an integer, [float64] when every field
    is a number or empty, and [object], the fields kept as strings, when
    a field is another text. *)
Inductive Field : Type :=
| Empty               (* an empty field or an NA marker: NaN *)
| Int (z : Z)         (* an integer *)
| Float (x : float)   (* another number: 2016.5, 2e3, inf *)
| Text (s : string).  (* no number *)

Record Row : Type := line {
  Country : option string;
  Year    : Field;
  Rank    : option Z;
  Golds   : option Z;
  Silvers : option Z;
  Bronzes : option Z;
  Medals  : option Z
}.

(** A row of the tables above as a row of the file. *)
Definition of_raw (r : Raw.Row) : Row :=
  {| Country := Raw.Country r;
     Year := match Raw.Year r with Some z => Int z | None => Empty end;
     Rank := Raw.Rank r; Golds := Raw.Golds r; Silvers := Raw.Silvers r;
     Bronzes := Raw.Bronzes r; Medals := Raw.Medals r |}.

Definition is_text (f : Field) : bool :=
  match f with Text _ => true | _ => false end.

(** [pd.to_numeric(df["Year"], errors="coerce")]: a text becomes NaN. *)
Definition to_numeric (f : Field) : Field :=
  match f with Text _ => Empty | _ => f end.

(** [notna] of a field. *)
Definition notna (f : Field) : bool :=
  match f with
  | Empty => false
  | Float x => negb (PrimFloat.is_nan x)
  | Int _ | Text _ => true
  end.

(** The cast of a [float64] to [int64]: the fraction is dropped, toward
    zero; NaN and the infinities have no integer ([None]).  A finite
    binary64 number is [(-1)^s * m * 2^e]. *)
Definition trunc (x : float) : option Z :=
  match Prim2SF x with
  | S754_zero _ => Some 0
  | S754_finite s m e =>
      let v := Z.shiftl (Z.pos m) e in
      Some (if s then - v else v)
  | S754_infinity _ | S754_nan => None
  end.

(** The integer [astype(int)] makes of a field of a numeric column
    ([None]: NaN or an infinity).  An integer of a [float64] column is
    held exactly (years are far below [2^53]), and the integer part of a
    number is within [int64]. *)
Definition year_value (f : Field) : option Z :=
  match f with
  | Int z => Some z
  | Float x => trunc x
  | Empty | Text _ => None
  end.

(** The row of the loaded table, [Year] cast. *)
Definition with_year (r : Row) (y : Z) :=
  Build_Row (Country r) y (Rank r) (Golds r) (Silvers r) (Bronzes r)
    (Medals r).

(** The cast of a numeric column: it raises on NaN and on an infinity
    ("Cannot convert non-finite values (NA or inf) to integer"). *)
Fixpoint cast (rows : list Row) : result DataFrame :=
  match rows with
  | [] => Ok []
  | r :: rows' =>
      match year_value (Year r) with
      | None => Raise IntCastingNaNError
      | Some y => df <- cast rows' ;; Ok (with_year r y :: df)
      end
  end.

(** [df["Year"].astype(int)].  In an [object] column the fields are
    strings and NaN, converted one by one with [int]: the text that is
    no number is a [ValueError] ("invalid literal for int()"), and so
    are NaN and a string with a fraction. *)
Definition astype_int (rows : list Row) : result DataFrame :=
  if existsb (fun r => is_text (Year r)) rows then Raise ValueError
  else cast rows.

End Csv.

(** [src/app.py], [load_data], on any file. *)
Module AppCsv.

Definition load_data (csv : list Csv.Row) : result DataFrame :=
  Csv.astype_int csv.

End AppCsv.

(** [src/unnamed/part_000], [load_data], on any file. *)
Module App1Csv.

Definition to_numeric (r : Csv.Row) : Csv.Row :=
  {| Csv.Country := Csv.Country r;
     Csv.Year := Csv.to_numeric (Csv.Year r);
     Csv.Rank := Csv.Rank r; Csv.Golds := Csv.Golds r;
     Csv.Silvers := Csv.Silvers r; Csv.Bronzes := Csv.Bronzes r;
     Csv.Medals := Csv.Medals r |}.

Definition strip_country (r : Csv.Row) : Csv.Row :=
  {| Csv.Country := option_map Str.strip (Csv.Country r);
     Csv.Year := Csv.Year r; Csv.Rank := Csv.Rank r;
     Csv.Golds := Csv.Golds r; Csv.Silvers := Csv.Silvers r;
     Csv.Bronzes := Csv.Bronzes r; Csv.Medals := Csv.Medals r |}.

Definition is_placeholder (r : Csv.Row) : bool :=
  match Csv.Country r with
  | Some c => Str.isin App1.placeholders (Str.lower c)
  | None => false
  end.

Definition load_data (csv : list Csv.Row) : result DataFrame :=
  (* for col in [...]: df[col] = pd.to_numeric(df[col], errors="coerce");
     in the five other columns a text is missing already *)
  let df := map to_numeric csv in
  (* df = df.dropna(subset=["Country"]) *)
  let df := filter (fun r => notna (Csv.Country r)) df in
  (* df["Country"] = df["Country"].astype(str).str.strip() *)
  let df := map strip_country df in
  (* df = df[~df["Country"].str.lower().isin(["nan","none","","n/a"])] *)
  let df := filter (fun r => negb (is_placeholder r)) df in
  (* df = df.dropna(subset=["Year", "Medals"]) *)
  let df :=
    filter (fun r => Csv.notna (Csv.Year r) && notna (Csv.Medals r)) df in
  (* df["Year"] = df["Year"].astype(int) *)
  Csv.astype_int df.

End App1Csv.

(** The rows that reach the cast of [Year] in [App1Csv.load_data]. *)
Definition csv_cleaned (csv : list Csv.Row) : list Csv.Row :=
  filter (fun r => Csv.notna (Csv.Year r) && notna (Csv.Medals r))
    (filter (fun r => negb (App1Csv.is_placeholder r))
       (map App1Csv.strip_country
          (filter (fun r => notna (Csv.Country r))
             (map App1Csv.to_numeric csv)))).

(** The rows that reach the cast of [Year] in [App1.load_data]. *)
Definition cleaned (csv : list Raw.Row) : list Raw.Row :=
  filter (fun r => notna (Raw.Year r) && notna (Raw.Medals r))
    (filter (fun r => negb (App1.is_placeholder r))
       (map App1.strip_country
          (filter (fun r => notna (Raw.Country r)) csv))).

(* ================================================================== *)
(** * The example table of the specification *)

Definition raw_row (c : string) (y rank g s b m : Z) : Raw.Row :=
  {| Raw.Country := Some c; Raw.Year := Some y; Raw.Rank := Some rank;
     Raw.Golds := Some g; Raw.Silvers := Some s; Raw.Bronzes := Some b;
     Raw.Medals := Some m |}.

Definition example_csv : list Raw.Row :=
  [ raw_row "USA" 2016 1 46 37 38 121;
    raw_row "USA" 2012 1 46 29 29 104;
    raw_row "CHN" 2016 2 26 18 26 70 ].


Definition row (c : string) (y rank g s b m : Z) : Row :=
  {| Country := Some c; Year := y; Rank := Some rank;
     Golds := Some g; Silvers := Some s; Bronzes := Some b;
     Medals := Some m |}.

(** A table with a placeholder country that [read_csv] reads as text. *)
Definition csv_none : list Raw.Row :=
  [ raw_row "none" 2016 1 0 0 0 5 ].


(** The loaded example table. *)
Definition example_df : DataFrame :=
  [ row "USA" 2016 1 46 37 38 121;
    row "USA" 2012 1 46 29 29 104;
    row "CHN" 2016 2 26 18 26 70 ].

(** The rows of a country. *)
Definition of_country (c : string) : Row -> bool :=
  Pandas.has_key Pandas.str_cmp Country c.

(** What is asked of [res], the ranking of the [n] countries with the
    largest sums of the column [col] over the table [dff]:
    - an entry pairs a country with the sum of the column over its rows;
    - there are [min n (number of distinct countries)] entries;
    - read from the last entry to the first, the values never increase;
    - a country left out has a smaller sum than every country kept, or
      the same sum and a later place in the grouping order, which is the
      order of the country names. *)
Definition top_ranking (col : Row -> option Z) (n : Z) (dff : DataFrame)
    (res : list (string * Z)) : Prop :=
  (forall c v, In (c, v) res ->
     v = sum (map col (filter (of_country c) dff)))
  /\ List.length res
     = Nat.min (Z.to_nat n) (Pandas.nunique string_dec (map Country dff))
  /\ StronglySorted (fun a b => snd b <= snd a) (rev res)
  /\ (forall c v c' v',
        In (c, v) res ->
        In (c', v') (sum_by_country col dff) ->
        ~ In (c', v') res ->
        v' < v \/ (v' = v /\ Pandas.str_cmp c c' = Lt)).

(** The invariant of the canonical table that the KPI row relies on: no
    row lacks its country. *)
Definition no_missing_country (df : DataFrame) : Prop :=
  Forall (fun r => notna (Country r) = true) df.


Definition p_swapped : Params :=
  {| year_range := (2016, 2012); top_n := 10;
     selected_countries := ["USA"%string]; medal_type := MMedals |}.

(** A row of the conversion view.  A decimal constant stands for the
    binary64 number nearest to it. *)
Definition conv (c : string) (g m : Z) (pct : float) : App1.Conv :=
  {| App1.conv_Country := c; App1.conv_Golds := g; App1.conv_Medals := m;
     App1.Gold_pct := pct |}.

(** Follows the spec's words for the percentage of the conversion rate,
    to be compared with [App1.gold_pct]: "percent = round(100 *
    totalGolds / totalMedals, 1 decimal)", the product first and the
    quotient after it. *)
Definition spec_percent (golds medals : Z) : float :=
  F64.round1
    (PrimFloat.div (PrimFloat.mul 100%float (F64.of_Z golds))
       (F64.of_Z medals)).

(** A filtered table in which a country has won 23 Golds of 80 Medals. *)
Definition df_23_of_80 : DataFrame :=
  [ row "KEN" 2016 15 13 15 12 40;
    row "KEN" 2012 20 10 12 18 40 ].

(** The rows of the country [C] in the ten years from [D] on. *)
Definition in_decade (C : string) (D : Z) (r : Row) : bool :=
  of_country C r && (D <=? Year r) && (Year r <=? D + 9).

(** The Series that [heat_df] unstacks: the Medals of the countries of
    [top], summed by country and decade. *)
Definition decade_sums (top : list string) (dff : DataFrame)
  : list ((string * string) * Z) :=
  Pandas.groupby_sum cmp2 Country_Decade Medals (filter (country_isin top) dff).

(** The order of the keys (Year, Country). *)
Definition cmp3 : Z * string -> Z * string -> comparison :=
  Pandas.cmp_pair Z.compare Pandas.str_cmp.

(** The rows of the country [c] in the year [y]. *)
Definition in_year (y : Z) (c : string) (r : Row) : bool :=
  (Year r =? y) && of_country c r.

(** [frame.loc[c]], the cells of the row of a label; [None] is a
    [KeyError]. *)
Definition frame_row (f : Pandas.Frame) (c : string) : option (list (option Z)) :=
  match Pandas.get_loc Pandas.str_cmp c (Pandas.index f) with
  | Some i => nth_error (Pandas.data f) i
  | None => None
  end.


(** A row of the file that the cleaning of part_000 leaves as it is: the
    country is present, trimmed and no placeholder, the year is a number
    and Medals is present. *)
Definition csv_is_clean (r : Csv.Row) : bool :=
  match Csv.Country r with
  | Some c =>
      String.eqb (Str.strip c) c
      && negb (Str.isin App1.placeholders (Str.lower c))
  | None => false
  end
  && negb (Csv.is_text (Csv.Year r))
  && Csv.notna (Csv.Year r) && notna (Csv.Medals r).

(** The no-break space U+00A0. *)
Definition nbsp : string :=
  String (ascii_of_N 194) (String (ascii_of_N 160) EmptyString).

Definition csv_row (c : string) (y : Csv.Field) (rank g s b m : Z) : Csv.Row :=
  {| Csv.Country := Some c; Csv.Year := y; Csv.Rank := Some rank;
     Csv.Golds := Some g; Csv.Silvers := Some s; Csv.Bronzes := Some b;
     Csv.Medals := Some m |}.

(** A file in need of cleaning: no-break spaces around a country and in
    front of a placeholder, a year with a fraction, a year that is a
    text, a row without a country. *)
Definition csv_messy : list Csv.Row :=
  [ csv_row (nbsp ++ "USA" ++ nbsp) (Csv.Float 2016.7) 1 46 37 38 121;
    csv_row (nbsp ++ "none") (Csv.Int 2016) 9 0 0 0 5;
    csv_row "CHN" (Csv.Text "n.d.") 2 26 18 26 70;
    {| Csv.Country := None; Csv.Year := Csv.Int 2012; Csv.Rank := None;
       Csv.Golds := Some 1; Csv.Silvers := Some 1; Csv.Bronzes := Some 1;
       Csv.Medals := Some 3 |};
    csv_row " KEN " (Csv.Int 2012) 20 10 12 18 40 ].

(** A file that needs none; one year carries a fraction. *)
Definition csv_tidy : list Csv.Row :=
  [ csv_row "USA" (Csv.Int 2016) 1 46 37 38 121;
    csv_row "USA" (Csv.Float 2012.5) 1 46 29 29 104;
    csv_row "CHN" (Csv.Int 2016) 2 26 18 26 70 ].
(* ================================================================== *)
(** * Facts about the string methods *)

Module StrFacts.
Import Str.

Lemma rstrip_cons (c : ascii) (s : string) :
  rstrip (String c s)
  = if is_space (String c (rstrip s)) then EmptyString
    else String c (rstrip s).
Proof. reflexivity. Qed.

Lemma rstrip_idempotent (s : string) : rstrip (rstrip s) = rstrip s.
Proof.
  induction s as [|c s IH]; [reflexivity|].
  rewrite rstrip_cons.
  destruct (is_space (String c (rstrip s))) eqn:E; [reflexivity|].
  now rewrite rstrip_cons, IH, E.
Qed.

(** A string without trailing whitespace has none after its first
    byte. *)
Lemma rstrip_fixed_tail (c : ascii) (s : string) :
  rstrip (String c s) = String c s -> rstrip s = s.
Proof.
  rewrite rstrip_cons.
  destruct (is_space (String c (rstrip s))); [discriminate|].
  intros H. now injection H.
Qed.

Lemma lstrip_cons (a : ascii) (s1 : string) :
  lstrip (String a s1)
  = if isspace a then lstrip s1 else
    match s1 with
    | EmptyString => String a s1
    | String b s2 =>
        if isspace2 a b then lstrip s2 else
        match s2 with
        | EmptyString => String a s1
        | String c s3 =>
            if isspace3 a b c then lstrip s3 else String a s1
        end
    end.
Proof. reflexivity. Qed.

(** A property that holds of a string when it holds of the string less
    its first one, two or three bytes holds of every string. *)
Lemma string_ind3 (P : string -> Prop) :
  (forall s,
      (forall a s1, s = String a s1 -> P s1) ->
      (forall a b s2, s = String a (String b s2) -> P s2) ->
      (forall a b c s3, s = String a (String b (String c s3)) -> P s3) ->
      P s) ->
  forall s, P s.
Proof.
  intros H.
  assert (H3 : forall s, P s /\
                 (forall a, P (String a s)) /\
                 (forall a b, P (String a (String b s)))).
  { induction s as [|x s (IH0 & IH1 & IH2)].
    - assert (P0 : P EmptyString)
        by (apply H; intros; discriminate).
      assert (P1 : forall a, P (String a EmptyString)).
      { intros a. apply H; intros; try discriminate.
        match goal with E : _ = _ |- _ => injection E as _ <- end.
        exact P0. }
      split; [exact P0|]. split; [exact P1|].
      intros a b. apply H; intros; try discriminate.
      + match goal with E : _ = _ |- _ => injection E as _ <- end.
        apply P1.
      + match goal with E : _ = _ |- _ => injection E as _ _ <- end.
        exact P0.
    - split; [apply IH1|]. split; [intros a; apply IH2|].
      intros a b. apply H; intros.
      + match goal with E : _ = _ |- _ => injection E as _ <- end.
        apply IH2.
      + match goal with E : _ = _ |- _ => injection E as _ _ <- end.
        apply IH1.
      + match goal with E : _ = _ |- _ => injection E as _ _ _ <- end.
        exact IH0. }
  intros s. apply H3.
Qed.

Lemma lstrip_idempotent (s : string) : lstrip (lstrip s) = lstrip s.
Proof.
  induction s as [s IH1 IH2 IH3] using string_ind3.
  destruct s as [|a [|b [|c s3]]]; [reflexivity| | |].
  - rewrite lstrip_cons. destruct (isspace a) eqn:Ha; [reflexivity|].
    now rewrite lstrip_cons, Ha.
  - rewrite lstrip_cons. destruct (isspace a) eqn:Ha;
      [exact (IH1 _ _ eq_refl)|].
    destruct (isspace2 a b) eqn:Hb; [reflexivity|].
    now rewrite lstrip_cons, Ha, Hb.
  - rewrite lstrip_cons. destruct (isspace a) eqn:Ha;
      [exact (IH1 _ _ eq_refl)|].
    destruct (isspace2 a b) eqn:Hb; [exact (IH2 _ _ _ eq_refl)|].
    destruct (isspace3 a b c) eqn:Hc; [exact (IH3 _ _ _ _ eq_refl)|].
    now rewrite lstrip_cons, Ha, Hb, Hc.
Qed.

(** Removing leading whitespace from a string without trailing
    whitespace leaves no trailing whitespace. *)
Lemma rstrip_lstrip_fixed (t : string) :
  rstrip t = t -> rstrip (lstrip t) = lstrip t.
Proof.
  induction t as [t IH1 IH2 IH3] using string_ind3.
  intros H.
  destruct t as [|a [|b [|c s3]]]; [reflexivity| | |].
  - rewrite lstrip_cons. destruct (isspace a); [reflexivity|exact H].
  - pose proof (rstrip_fixed_tail _ _ H) as H1.
    rewrite lstrip_cons. destruct (isspace a);
      [exact (IH1 _ _ eq_refl H1)|].
    destruct (isspace2 a b); [reflexivity|exact H].
  - pose proof (rstrip_fixed_tail _ _ H) as H1.
    pose proof (rstrip_fixed_tail _ _ H1) as H2.
    pose proof (rstrip_fixed_tail _ _ H2) as H3.
    rewrite lstrip_cons. destruct (isspace a);
      [exact (IH1 _ _ eq_refl H1)|].
    destruct (isspace2 a b); [exact (IH2 _ _ _ eq_refl H2)|].
    destruct (isspace3 a b c); [exact (IH3 _ _ _ _ eq_refl H3)|exact H].
Qed.

(** The first byte of a whitespace character of two or three bytes, and
    the bytes after it, are no whitespace themselves. *)
Lemma isspace2_bytes (a b : ascii) :
  isspace2 a b = true -> isspace a = false /\ isspace b = false.
Proof.
  unfold isspace2, isspace. intros H.
  apply andb_prop in H. destruct H as [Ha Hb].
  apply N.eqb_eq in Ha. rewrite Ha.
  apply orb_prop in Hb.
  destruct Hb as [Hb|Hb]; apply N.eqb_eq in Hb; rewrite Hb; split; reflexivity.
Qed.

Lemma isspace3_bytes (a b c : ascii) :
  isspace3 a b c = true ->
  isspace a = false /\ isspace2 a b = false
  /\ isspace c = false /\ isspace2 b c = false.
Proof.
  unfold isspace3, isspace2, isspace. intros H.
  assert (Ha : (N_of_ascii a =? 194)%N = false
               /\ (N_of_ascii a <=? 13)%N = false
               /\ (N_of_ascii a <=? 32)%N = false).
  { repeat (apply orb_prop in H; destruct H as [H|H]);
      repeat (apply andb_prop in H; destruct H as [H ?]);
      apply N.eqb_eq in H; rewrite H; repeat split. }
  assert (Hb : (N_of_ascii b =? 194)%N = false).
  { repeat (apply orb_prop in H; destruct H as [H|H]);
      repeat (apply andb_prop in H; destruct H as [H ?]);
      match goal with E : (N_of_ascii b =? _)%N = true |- _ =>
        apply N.eqb_eq in E; rewrite E end; reflexivity. }
  assert (Hc : (128 <= N_of_ascii c)%N).
  { repeat (apply orb_prop in H; destruct H as [H|H]);
      repeat (apply andb_prop in H; destruct H as [H ?]);
      repeat match goal with
             | E : (_ || _)%bool = true |- _ =>
                 apply orb_prop in E; destruct E as [E|E]
             | E : (_ && _)%bool = true |- _ =>
                 apply andb_prop in E; destruct E as [E ?]
             | E : (N_of_ascii c =? _)%N = true |- _ => apply N.eqb_eq in E
             | E : (_ <=? N_of_ascii c)%N = true |- _ => apply N.leb_le in E
             end; lia. }
  destruct Ha as (Ha1 & Ha2 & Ha3). rewrite Ha1, Ha2, Ha3, Hb.
  assert (Hc1 : (N_of_ascii c <=? 13)%N = false) by (apply N.leb_gt; lia).
  assert (Hc2 : (N_of_ascii c <=? 32)%N = false) by (apply N.leb_gt; lia).
  rewrite Hc1, Hc2, !andb_false_r. repeat split.
Qed.

(** [lstrip] drops a whitespace character in front, whatever its
    length in bytes. *)
Lemma lstrip_space (w s : string) :
  is_space w = true -> lstrip (w ++ s) = lstrip s.
Proof.
  destruct w as [|a [|b [|c [|d w]]]]; simpl is_space; try discriminate;
    intros H; cbn [append]; rewrite lstrip_cons.
  - now rewrite H.
  - destruct (isspace2_bytes a b H) as [Ha _]. now rewrite Ha, H.
  - destruct (isspace3_bytes a b c H) as (Ha & Hab & _). now rewrite Ha, Hab, H.
Qed.

(** [rstrip] drops a whitespace character at the end, whatever its
    length in bytes. *)
Lemma rstrip_space (s w : string) :
  is_space w = true -> rstrip (s ++ w) = rstrip s.
Proof.
  intros H.
  assert (Hw : rstrip w = EmptyString).
  { destruct w as [|a [|b [|c [|d w]]]]; simpl in H; try discriminate.
    - rewrite rstrip_cons. cbn [rstrip is_space]. now rewrite H.
    - destruct (isspace2_bytes a b H) as [_ Hb].
      rewrite !rstrip_cons. cbn [rstrip is_space]. now rewrite Hb, H.
    - destruct (isspace3_bytes a b c H) as (_ & _ & Hc & Hbc).
      rewrite !rstrip_cons. cbn [rstrip is_space]. now rewrite Hc, Hbc, H. }
  induction s as [|x s IH]; [exact Hw|].
  cbn [append]. now rewrite !rstrip_cons, IH.
Qed.

Lemma strip_idempotent (s : string) : strip (strip s) = strip s.
Proof.
  unfold strip.
  rewrite (rstrip_lstrip_fixed (rstrip s)) by apply rstrip_idempotent.
  apply lstrip_idempotent.
Qed.

End StrFacts.

(* ================================================================== *)
(** * Facts about [load_data] *)

Lemma astype_int_rows (l : list Raw.Row) :
  forall df, astype_int l = Ok df ->
  forall row, In row df ->
  exists r y, In r l /\ Raw.Year r = Some y /\ row = with_year r y.
Proof.
  induction l as [|r l IH]; simpl; intros df H row Hin.
  - injection H as <-. destruct Hin.
  - destruct (Raw.Year r) as [y|] eqn:Hy; [|discriminate H].
    destruct (astype_int l) as [df'|e] eqn:E; simpl in H; [|discriminate H].
    injection H as <-.
    destruct Hin as [<-|Hin].
    + exists r, y. auto.
    + destruct (IH df' eq_refl row Hin) as (r' & y' & H1 & H2 & H3).
      exists r', y'. auto.
Qed.


Lemma astype_int_total (l : list Raw.Row) :
  Forall (fun r => notna (Raw.Year r) = true) l ->
  exists df, astype_int l = Ok df.
Proof.
  induction 1 as [|r l Hr _ [df IH]]; simpl.
  - now exists [].
  - destruct (Raw.Year r) as [y|]; [|discriminate Hr].
    rewrite IH. simpl. eauto.
Qed.

Lemma App1_load_data_cleaned (csv : list Raw.Row) :
  App1.load_data csv = astype_int (cleaned csv).
Proof. reflexivity. Qed.

(** After the two [dropna] no [Year] is missing: the cast cannot raise. *)
Lemma App1_load_data_total (csv : list Raw.Row) :
  exists df, App1.load_data csv = Ok df.
Proof.
  rewrite App1_load_data_cleaned. apply astype_int_total.
  apply Forall_forall. intros r Hr.
  apply filter_In in Hr. destruct Hr as [_ Hr].
  now apply andb_prop in Hr.
Qed.

Lemma cleaned_Country (csv : list Raw.Row) (r : Raw.Row) :
  In r (cleaned csv) ->
  exists c, Raw.Country r = Some c /\ Str.strip c = c /\
            Str.isin App1.placeholders (Str.lower c) = false.
Proof.
  unfold cleaned. intros H.
  apply filter_In in H. destruct H as [H _].
  apply filter_In in H. destruct H as [H Hp].
  apply in_map_iff in H. destruct H as (r0 & <- & H0).
  apply filter_In in H0. destruct H0 as [_ H0].
  unfold App1.is_placeholder in Hp. simpl in *.
  destruct (Raw.Country r0) as [c0|]; [|discriminate H0].
  simpl in *. exists (Str.strip c0).
  split; [reflexivity|]. split; [apply StrFacts.strip_idempotent|].
  now apply negb_true_iff in Hp.
Qed.

(** What [App1.load_data] guarantees of every row it returns: the country
    is present, is already trimmed, and is none of the placeholders once
    lower-cased; [Medals] is present. *)
Lemma App1_load_data_canonical (csv : list Raw.Row) (df : DataFrame) :
  App1.load_data csv = Ok df ->
  Forall (fun row =>
            (exists c, Country row = Some c /\ Str.strip c = c /\
               Str.isin App1.placeholders (Str.lower (Str.strip c)) = false)
            /\ notna (Medals row) = true) df.
Proof.
  rewrite App1_load_data_cleaned. intros H.
  apply Forall_forall. intros row Hrow.
  destruct (astype_int_rows _ _ H row Hrow) as (r & y & Hr & _ & ->).
  split.
  - destruct (cleaned_Country csv r Hr) as (c & Hc & Hs & Hp).
    exists c. simpl. rewrite Hs. auto.
  - simpl. unfold cleaned in Hr. apply filter_In in Hr.
    destruct Hr as [_ Hr]. now apply andb_prop in Hr.
Qed.

(** The cleaned table of [App1.load_data] holds no placeholder country:
    whatever the raw table, its Year fields being integers or missing,
    the call returns, and the trimmed, lower-cased [Country] of every
    returned row is present and is none of "nan", "none", "", "n/a".
    [App1Csv_load_data_no_placeholder] below has it for any Year
    column. *)
Theorem App1_load_data_no_placeholder (csv : list Raw.Row) :
  match App1.load_data csv with
  | Ok df =>
      Forall (fun row =>
                match Country row with
                | Some c =>
                    Str.isin ["nan"; "none"; ""; "n/a"]%string
                      (Str.lower (Str.strip c)) = false
                | None => False
                end) df
  | Raise _ => False
  end.
Proof.
  destruct (App1_load_data_total csv) as [df H]. rewrite H.
  eapply Forall_impl; [|exact (App1_load_data_canonical csv df H)].
  intros r [(c & Hc & _ & Hp) _]. now rewrite Hc.
Qed.

(** C1, at the failing input.  The claim holds of the [load_data] of
    part_000 ([App1_load_data_no_placeholder] above, and
    [App1Csv_load_data_no_placeholder] below for any file), but not of
    the [load_data] of [src/app.py], which has no cleaning step: a row
    whose Country is the text "none" is returned as it is, and its
    trimmed, lower-cased Country is one of the placeholders;
    [App1.load_data] drops the same row. *)
Theorem C1_app_load_data_keeps_placeholder :
  App.load_data csv_none = Ok [row "none" 2016 1 0 0 0 5]
  /\ Str.isin App1.placeholders (Str.lower (Str.strip "none")) = true
  /\ App1.load_data csv_none = Ok [].
Proof. repeat split. Qed.

(* ------------------------------------------------------------------ *)
(** ** Sums of a column *)

Lemma sum_cons {A : Type} (col : A -> option Z) (r : A) (l : list A) :
  sum (map col (r :: l)) =
  match col r with Some v => v + sum (map col l) | None => sum (map col l) end.
Proof. reflexivity. Qed.







(* ================================================================== *)
(** * Facts about the pandas operations *)

Module PandasFacts.
Import Pandas.

Section KeysFacts.
Context {K : Type} (cmp : K -> K -> comparison).
Hypothesis cmp_eq : forall a b, cmp a b = Eq <-> a = b.
Hypothesis cmp_gt : forall a b, cmp a b = Gt -> cmp b a = Lt.
Hypothesis cmp_trans :
  forall a b c, cmp a b = Lt -> cmp b c = Lt -> cmp a c = Lt.

Let klt (a b : K) : Prop := cmp a b = Lt.

Lemma key_eqb_eq (a b : K) : key_eqb cmp a b = true <-> a = b.
Proof.
  unfold key_eqb. rewrite <- cmp_eq.
  destruct (cmp a b); split; congruence.
Qed.

Lemma klt_irrefl (a : K) : ~ klt a a.
Proof.
  unfold klt. intros H.
  assert (E : cmp a a = Eq) by now apply cmp_eq.
  congruence.
Qed.

Lemma add_key_In (k x : K) (ks : list K) :
  In x (add_key cmp k ks) <-> x = k \/ In x ks.
Proof.
  induction ks as [|k' ks IH]; simpl.
  - intuition.
  - destruct (cmp k k') eqn:E; simpl.
    + apply cmp_eq in E. subst. intuition.
    + intuition.
    + rewrite IH. intuition.
Qed.

Lemma add_key_sorted (k : K) (ks : list K) :
  StronglySorted klt ks -> StronglySorted klt (add_key cmp k ks).
Proof.
  induction 1 as [|k' ks Hs IH Hall]; simpl.
  - repeat constructor.
  - destruct (cmp k k') eqn:E.
    + now constructor.
    + constructor; [now constructor|].
      constructor; [exact E|].
      eapply Forall_impl; [|exact Hall].
      intros z Hz. exact (cmp_trans _ _ _ E Hz).
    + constructor; [exact IH|].
      apply Forall_forall. intros z Hz.
      apply add_key_In in Hz. destruct Hz as [->|Hz].
      * now apply cmp_gt.
      * rewrite Forall_forall in Hall. now apply Hall.
Qed.

Lemma unique_sorted_In (x : K) (ks : list K) :
  In x (unique_sorted cmp ks) <-> In x ks.
Proof.
  induction ks as [|k ks IH]; simpl; [tauto|].
  rewrite add_key_In, IH. intuition.
Qed.

Lemma unique_sorted_sorted (ks : list K) :
  StronglySorted klt (unique_sorted cmp ks).
Proof.
  induction ks as [|k ks IH]; simpl; [constructor|].
  now apply add_key_sorted.
Qed.

Lemma sorted_NoDup (ks : list K) : StronglySorted klt ks -> NoDup ks.
Proof.
  induction 1 as [|k ks _ IH Hall]; constructor; [|exact IH].
  intros Hin. rewrite Forall_forall in Hall.
  exact (klt_irrefl k (Hall k Hin)).
Qed.

Lemma unique_sorted_NoDup (ks : list K) : NoDup (unique_sorted cmp ks).
Proof. apply sorted_NoDup, unique_sorted_sorted. Qed.

(** [nunique] counts the keys of the grouping. *)
Lemma unique_sorted_length (dec : forall x y : K, {x = y} + {x <> y})
    (ks : list K) :
  List.length (unique_sorted cmp ks) = List.length (nodup dec ks).
Proof.
  apply Permutation_length, NoDup_Permutation.
  - apply unique_sorted_NoDup.
  - apply NoDup_nodup.
  - intros x. rewrite unique_sorted_In, nodup_In. tauto.
Qed.

Lemma get_loc_nth {B : Type} (f : K -> B) (d : B) (k : K) (ks : list K) :
  In k ks -> exists i, get_loc cmp k ks = Some i /\ nth i (map f ks) d = f k
                       /\ nth_error (map f ks) i = Some (f k).
Proof.
  induction ks as [|k' ks IH]; simpl; intros Hin; [destruct Hin|].
  destruct (key_eqb cmp k' k) eqn:E.
  - apply key_eqb_eq in E. subst. exists O. auto.
  - destruct Hin as [->|Hin].
    + rewrite (proj2 (key_eqb_eq k k) eq_refl) in E. discriminate E.
    + destruct (IH Hin) as (i & Hi & Hn & Hn').
      exists (S i). rewrite Hi. auto.
Qed.

Lemma get_loc_None (k : K) (ks : list K) :
  ~ In k ks -> get_loc cmp k ks = None.
Proof.
  induction ks as [|k' ks IH]; simpl; intros Hnot; [reflexivity|].
  destruct (key_eqb cmp k' k) eqn:E.
  - apply key_eqb_eq in E. subst. exfalso. apply Hnot. now left.
  - rewrite IH; [reflexivity|]. intros H. apply Hnot. now right.
Qed.

Context {R : Type} (key : R -> option K).

Lemma keys_of_In (k : K) (df : list R) :
  In k (keys_of key df) <-> exists r, In r df /\ key r = Some k.
Proof.
  unfold keys_of. rewrite in_flat_map. split.
  - intros (r & Hr & Hk). exists r. split; [exact Hr|].
    destruct (key r); simpl in Hk; [|destruct Hk].
    destruct Hk as [->|[]]. reflexivity.
  - intros (r & Hr & Hk). exists r. split; [exact Hr|].
    rewrite Hk. now left.
Qed.

Lemma groupby_keys (df : list R) :
  map fst (groupby cmp key df) = unique_sorted cmp (keys_of key df).
Proof.
  unfold groupby. rewrite map_map. simpl. apply map_id.
Qed.

Lemma groupby_sum_keys (col : R -> option Z) (df : list R) :
  map fst (groupby_sum cmp key col df) = unique_sorted cmp (keys_of key df).
Proof.
  unfold groupby_sum. rewrite map_map. simpl. apply groupby_keys.
Qed.

Lemma has_key_true (k : K) (r : R) :
  has_key cmp key k r = true <-> key r = Some k.
Proof.
  unfold has_key. destruct (key r) as [k'|].
  - rewrite key_eqb_eq. split; congruence.
  - split; discriminate.
Qed.

(** The value of a group is the sum of the column over the rows of that
    key. *)
Lemma groupby_sum_In (col : R -> option Z) (df : list R) (k : K) (v : Z) :
  In (k, v) (groupby_sum cmp key col df) <->
  In k (keys_of key df) /\ v = sum (map col (filter (has_key cmp key k) df)).
Proof.
  unfold groupby_sum, groupby. rewrite map_map. simpl.
  rewrite in_map_iff. split.
  - intros (k' & E & Hk'). injection E as E1 E2. subst k'.
    apply (proj1 (unique_sorted_In _ _)) in Hk'.
    split; [exact Hk'|now symmetry].
  - intros [Hk ->]. exists k. split; [reflexivity|].
    now apply (proj2 (unique_sorted_In _ _)).
Qed.

End KeysFacts.

(** The order of the group keys: strings by character codes. *)
Lemma str_cmp_eq (a b : string) : str_cmp a b = Eq <-> a = b.
Proof.
  unfold str_cmp. destruct (String_as_OT.compare_spec a b) as [E|L|L].
  - tauto.
  - split; [discriminate|]. intros ->.
    exfalso. exact (StrictOrder_Irreflexive b L).
  - split; [discriminate|]. intros ->.
    exfalso. exact (StrictOrder_Irreflexive b L).
Qed.

Lemma str_cmp_gt (a b : string) : str_cmp a b = Gt -> str_cmp b a = Lt.
Proof.
  unfold str_cmp. destruct (String_as_OT.compare_spec a b) as [E|L|L];
    try discriminate.
  intros _. exact L.
Qed.

Lemma str_cmp_trans (a b c : string) :
  str_cmp a b = Lt -> str_cmp b c = Lt -> str_cmp a c = Lt.
Proof. exact (StrictOrder_Transitive a b c). Qed.

Section SortFacts.
Context {A : Type} (leb : A -> A -> bool).

Lemma insert_perm (x : A) (l : list A) : Permutation (insert leb x l) (x :: l).
Proof.
  induction l as [|y l IH]; simpl; [reflexivity|].
  destruct (leb x y); [reflexivity|].
  rewrite IH. apply perm_swap.
Qed.

Lemma sort_perm (l : list A) : Permutation (sort leb l) l.
Proof.
  induction l as [|x l IH]; simpl; [reflexivity|].
  rewrite insert_perm. now constructor.
Qed.

(** [pre] relates a row to the rows after it in the frame; [S] is the
    order of the sorted frame. *)
Context (pre S : A -> A -> Prop).
Hypothesis S_le : forall x y, leb x y = true -> pre x y -> S x y.
Hypothesis S_gt : forall x y, leb x y = false -> S y x.
Hypothesis S_trans :
  forall x y z, leb x y = true -> pre x z -> S y z -> S x z.

Lemma insert_sorted (x : A) (m : list A) :
  StronglySorted S m -> Forall (pre x) m -> StronglySorted S (insert leb x m).
Proof.
  induction 1 as [|y m Hm IH Hall]; simpl; intros Hpre.
  - repeat constructor.
  - inversion Hpre as [|? ? Hxy Hpre']; subst.
    destruct (leb x y) eqn:E.
    + constructor; [now constructor|].
      constructor; [now apply S_le|].
      rewrite Forall_forall in *. intros z Hz.
      apply (S_trans x y z E); auto.
    + constructor; [now apply IH|].
      apply Forall_forall. intros z Hz.
      apply (Permutation_in _ (insert_perm x m)) in Hz.
      destruct Hz as [<-|Hz]; [now apply S_gt|].
      rewrite Forall_forall in Hall. now apply Hall.
Qed.

Lemma sort_sorted (l : list A) :
  StronglySorted pre l -> StronglySorted S (sort leb l).
Proof.
  induction 1 as [|x l Hl IH Hall]; simpl; [constructor|].
  apply insert_sorted; [exact IH|].
  rewrite Forall_forall in *. intros z Hz.
  apply Hall. exact (Permutation_in _ (sort_perm l) Hz).
Qed.

End SortFacts.

Lemma StronglySorted_True {A : Type} (l : list A) :
  StronglySorted (fun _ _ => True) l.
Proof.
  induction l; constructor; [assumption|].
  apply Forall_forall. auto.
Qed.

Lemma StronglySorted_map_inv {A B : Type} (f : A -> B) (R : B -> B -> Prop)
    (l : list A) :
  StronglySorted R (map f l) -> StronglySorted (fun a b => R (f a) (f b)) l.
Proof.
  induction l as [|a l IH]; simpl; intros H; [constructor|].
  inversion H as [|? ? Hs Hall]; subst.
  constructor; [now apply IH|].
  rewrite Forall_forall in *. intros b Hb. apply Hall. now apply in_map.
Qed.

Lemma StronglySorted_snoc {A : Type} (R : A -> A -> Prop) (l : list A) (x : A) :
  StronglySorted R l -> Forall (fun a => R a x) l -> StronglySorted R (l ++ [x]).
Proof.
  induction 1 as [|a l Hl IH Hall]; simpl; intros Hx.
  - repeat constructor.
  - inversion Hx as [|? ? Hax Hx']; subst.
    constructor; [now apply IH|].
    apply Forall_app. split; [exact Hall|]. now repeat constructor.
Qed.

Lemma StronglySorted_rev {A : Type} (R : A -> A -> Prop) (l : list A) :
  StronglySorted R l -> StronglySorted (fun a b => R b a) (rev l).
Proof.
  induction 1 as [|a l Hl IH Hall]; simpl; [constructor|].
  apply StronglySorted_snoc; [exact IH|].
  now apply Forall_rev.
Qed.

(** In a sorted list every element of a prefix precedes every element of
    the rest. *)
Lemma sorted_firstn_skipn {A : Type} (R : A -> A -> Prop) (n : nat) (l : list A) :
  StronglySorted R l ->
  forall a b, In a (firstn n l) -> In b (skipn n l) -> R a b.
Proof.
  revert l. induction n as [|n IH]; intros l Hl a b Ha Hb; [destruct Ha|].
  destruct l as [|x l]; [destruct Ha|].
  inversion Hl as [|? ? Hl' Hall]; subst. simpl in Ha, Hb.
  destruct Ha as [<-|Ha].
  - rewrite Forall_forall in Hall. apply Hall.
    rewrite <- (firstn_skipn n l). apply in_or_app. now right.
  - now apply (IH l).
Qed.

Section ValuesFacts.
Context {A : Type} (by_ : A -> Z).

Lemma sort_values_perm (asc : bool) (l : list A) :
  Permutation (sort_values by_ asc l) l.
Proof. unfold sort_values. destruct asc; apply sort_perm. Qed.

Lemma sort_values_ascending (l : list A) :
  StronglySorted (fun a b => by_ a <= by_ b) (sort_values by_ true l).
Proof.
  unfold sort_values.
  apply (sort_sorted _ (fun _ _ => True)); try apply StronglySorted_True.
  - intros x y H _. now apply Z.leb_le.
  - intros x y H. apply Z.leb_gt in H. lia.
  - intros x y z H _ Hyz. apply Z.leb_le in H. lia.
Qed.

(** Descending and stable: a row precedes the rows of smaller value, and,
    among the rows of its own value, those that followed it in the
    frame. *)
Lemma sort_values_descending (pre : A -> A -> Prop) (l : list A) :
  StronglySorted pre l ->
  StronglySorted (fun a b => by_ b < by_ a \/ (by_ b = by_ a /\ pre a b))
    (sort_values by_ false l).
Proof.
  unfold sort_values. apply sort_sorted.
  - intros x y H Hp. apply Z.leb_le in H.
    destruct (Z.eq_dec (by_ y) (by_ x)); [right; now split|left; lia].
  - intros x y H. apply Z.leb_gt in H. left. lia.
  - intros x y z H Hp Hyz. apply Z.leb_le in H.
    destruct (Z.eq_dec (by_ z) (by_ x)); [right; now split|left].
    destruct Hyz as [Hyz|[Hyz _]]; lia.
Qed.

Lemma nlargest_length (n : Z) (l : list A) :
  0 < n ->
  List.length (nlargest by_ n l) = Nat.min (Z.to_nat n) (List.length l).
Proof.
  intros Hn. unfold nlargest.
  destruct (n <=? 0) eqn:E; [apply Z.leb_le in E; lia|].
  rewrite length_firstn.
  now rewrite (Permutation_length (sort_values_perm false l)).
Qed.

Lemma nlargest_incl (n : Z) (l : list A) (a : A) :
  In a (nlargest by_ n l) -> In a l.
Proof.
  unfold nlargest. destruct (n <=? 0); [intros []|].
  intros H. apply (Permutation_in _ (sort_values_perm false l)).
  rewrite <- (firstn_skipn (Z.to_nat n)). apply in_or_app. now left.
Qed.

(** What [nlargest] leaves out is no larger than what it keeps, and a row
    left out with the value of a kept row followed it in the frame. *)
Lemma nlargest_first (pre : A -> A -> Prop) (n : Z) (l : list A) (a b : A) :
  StronglySorted pre l ->
  In a (nlargest by_ n l) -> In b l -> ~ In b (nlargest by_ n l) ->
  by_ b < by_ a \/ (by_ b = by_ a /\ pre a b).
Proof.
  unfold nlargest. destruct (n <=? 0); [intros _ []|].
  intros Hl Ha Hb Hnb.
  apply (sorted_firstn_skipn
           (fun a b => by_ b < by_ a \/ (by_ b = by_ a /\ pre a b))
           (Z.to_nat n) (sort_values by_ false l)).
  - now apply sort_values_descending.
  - exact Ha.
  - apply (Permutation_in _ (Permutation_sym (sort_values_perm false l))) in Hb.
    rewrite <- (firstn_skipn (Z.to_nat n)) in Hb.
    apply in_app_or in Hb. tauto.
Qed.

End ValuesFacts.

End PandasFacts.

(* ================================================================== *)
(** * The rankings by country *)

Import Pandas PandasFacts.

(** Discharges the order hypotheses of the key lemmas for strings. *)
Ltac str_order :=
  first [exact str_cmp_eq | exact str_cmp_gt | exact str_cmp_trans].

Lemma dropna_Country (dff : DataFrame) :
  dropna (map Country dff) = keys_of Country dff.
Proof.
  unfold dropna, keys_of.
  induction dff as [|r dff IH]; simpl; [reflexivity|].
  now rewrite IH.
Qed.

Lemma sum_by_country_keys (col : Row -> option Z) (dff : DataFrame) :
  map fst (sum_by_country col dff) = unique_sorted str_cmp (keys_of Country dff).
Proof. apply groupby_sum_keys. Qed.

(** One entry per distinct country. *)
Lemma sum_by_country_length (col : Row -> option Z) (dff : DataFrame) :
  List.length (sum_by_country col dff) = nunique string_dec (map Country dff).
Proof.
  rewrite <- (length_map fst), sum_by_country_keys.
  unfold nunique. rewrite dropna_Country.
  apply unique_sorted_length; str_order.
Qed.

(** The groups come in the order of the country names. *)
Lemma sum_by_country_sorted (col : Row -> option Z) (dff : DataFrame) :
  StronglySorted (fun a b => str_cmp (fst a) (fst b) = Lt)
    (sum_by_country col dff).
Proof.
  apply (StronglySorted_map_inv fst (fun a b => str_cmp a b = Lt)).
  rewrite sum_by_country_keys.
  apply unique_sorted_sorted; str_order.
Qed.

Lemma sum_by_country_In (col : Row -> option Z) (dff : DataFrame)
    (c : string) (v : Z) :
  In (c, v) (sum_by_country col dff) <->
  In c (keys_of Country dff) /\ v = sum (map col (filter (of_country c) dff)).
Proof. apply groupby_sum_In. exact str_cmp_eq. Qed.

Lemma top_ranking_holds (col : Row -> option Z) (n : Z) (dff : DataFrame) :
  0 < n ->
  top_ranking col n dff
    (sort_values snd true (nlargest snd n (sum_by_country col dff))).
Proof.
  intros Hn.
  set (groups := sum_by_country col dff).
  set (top := nlargest snd n groups).
  assert (Hperm : Permutation (sort_values snd true top) top)
    by apply sort_values_perm.
  repeat split.
  - intros c v Hin.
    apply (Permutation_in _ Hperm) in Hin.
    apply nlargest_incl in Hin.
    now apply sum_by_country_In in Hin.
  - rewrite (Permutation_length Hperm). unfold top.
    rewrite nlargest_length by exact Hn.
    unfold groups. now rewrite sum_by_country_length.
  - apply (StronglySorted_rev (fun a b => snd a <= snd b)).
    apply sort_values_ascending.
  - intros c v c' v' Hin Hin' Hout.
    apply (Permutation_in _ Hperm) in Hin.
    assert (Hout' : ~ In (c', v') top).
    { intros H. apply Hout.
      exact (Permutation_in _ (Permutation_sym Hperm) H). }
    exact (nlargest_first snd (fun a b => str_cmp (fst a) (fst b) = Lt)
             n groups (c, v) (c', v')
             (sum_by_country_sorted col dff) Hin Hin' Hout').
Qed.

(** C4.  For every filtered table, every medal column (Medals among them)
    and every positive [n], the ranking drawn by chart 1 of either
    dashboard ([top_df] in [src/app.py], [bar_df] in
    [src/unnamed/part_000]) pairs countries with their sums, has
    [min n (number of distinct countries)] entries, has non-increasing
    values when read in descending order (from the last bar to the
    first), and leaves out a country only for a smaller sum or, at equal
    sums, for a later place in the grouping order; being a function of
    the table, it is the same on every run over the same table. *)
Theorem C4_top_by_medal_type (mt : MedalType) (n : Z) (dff : DataFrame) :
  0 < n ->
  top_ranking (column mt) n dff (App.top_df mt n dff)
  /\ top_ranking (column mt) n dff (App1.bar_df mt n dff).
Proof.
  intros Hn. split; now apply top_ranking_holds.
Qed.

Lemma C4_top_by_medal_type_witness :
  top_ranking (column MMedals) 1 example_df (App.top_df MMedals 1 example_df)
  /\ top_ranking (column MMedals) 1 example_df (App1.bar_df MMedals 1 example_df).
Proof.
  apply (C4_top_by_medal_type MMedals 1 example_df). reflexivity.
Defined.

(* ================================================================== *)
(** * The year filter *)

Lemma Row_eq_dec (x y : Row) : {x = y} + {x <> y}.
Proof.
  repeat decide equality.
Qed.

Lemma mask_true (a b : Z) (r : Row) :
  App.mask (a, b) r = true <-> a <= Year r <= b.
Proof.
  unfold App.mask. simpl. rewrite andb_true_iff, !Z.leb_le. tauto.
Qed.

Lemma App1_dff_eq (yr : Z * Z) (df : DataFrame) : App1.dff yr df = App.dff yr df.
Proof. reflexivity. Qed.

Lemma count_occ_filter (f : Row -> bool) (df : DataFrame) (r : Row) :
  f r = true ->
  count_occ Row_eq_dec (filter f df) r = count_occ Row_eq_dec df r.
Proof.
  intros Hr. induction df as [|x df IH]; simpl; [reflexivity|].
  destruct (Row_eq_dec x r) as [->|Hne].
  - rewrite Hr. simpl. destruct (Row_eq_dec r r); congruence.
  - destruct (f x); simpl; [|exact IH].
    destruct (Row_eq_dec x r); congruence.
Qed.

(** C6.  [dff] holds exactly the rows of the table whose Year lies
    between the two bounds, both included: the same rows, as many times
    each; the two dashboards filter alike; and the KPI row and every
    chart depend on the table only through [dff]. *)
Theorem C6_filter_by_year_range (yearMin yearMax : Z) (df : DataFrame) :
  (forall r, In r (App.dff (yearMin, yearMax) df) <->
             In r df /\ yearMin <= Year r <= yearMax)
  /\ (forall r, yearMin <= Year r <= yearMax ->
                count_occ Row_eq_dec (App.dff (yearMin, yearMax) df) r
                = count_occ Row_eq_dec df r)
  /\ App1.dff (yearMin, yearMax) df = App.dff (yearMin, yearMax) df
  /\ (forall p df',
        year_range p = (yearMin, yearMax) ->
        App.dff (yearMin, yearMax) df' = App.dff (yearMin, yearMax) df ->
        App.dashboard p df' = App.dashboard p df
        /\ App1.dashboard p df' = App1.dashboard p df).
Proof.
  split; [|split; [|split]].
  - intros r. unfold App.dff. rewrite filter_In, mask_true. reflexivity.
  - intros r Hr. apply count_occ_filter. now apply mask_true.
  - reflexivity.
  - intros p df' Hp Hdff. split.
    + unfold App.dashboard. rewrite Hp. cbv zeta. now rewrite Hdff.
    + unfold App1.dashboard. rewrite Hp, !App1_dff_eq. cbv zeta.
      now rewrite Hdff.
Qed.

(** Filtering twice with the same bounds is filtering once. *)
Theorem dff_idempotent (year_range : Z * Z) (df : DataFrame) :
  App.dff year_range (App.dff year_range df) = App.dff year_range df
  /\ App1.dff year_range (App1.dff year_range df) = App1.dff year_range df.
Proof.
  assert (H : forall (f : Row -> bool) (l : list Row),
             filter f (filter f l) = filter f l).
  { intros f l. induction l as [|r l IH]; simpl; [reflexivity|].
    destruct (f r) eqn:E; simpl; [rewrite E|]; now rewrite ?IH. }
  split; apply H.
Qed.

(* ================================================================== *)
(** * The trend chart *)

Lemma country_isin_nil (r : Row) : country_isin [] r = false.
Proof. unfold country_isin. now destruct (Country r). Qed.

Lemma filter_country_isin_nil (dff : DataFrame) :
  filter (country_isin []) dff = [].
Proof.
  induction dff as [|r dff IH]; simpl; [reflexivity|].
  now rewrite country_isin_nil.
Qed.

(** C7.  With no spotlight country the expression of [trend_df] is the
    empty frame, whatever the table and the medal column, in both
    dashboards; it is a total function, so nothing is raised; and chart 3
    then shows the note instead of a line chart. *)
Theorem C7_trend_empty_selection (mt : MedalType) (dff : DataFrame) :
  App.trend_df [] mt dff = []
  /\ App1.trend_df [] mt dff = []
  /\ App.chart3 [] mt dff = None
  /\ App1.chart3 [] mt dff = None.
Proof.
  unfold App.trend_df, App1.trend_df.
  rewrite filter_country_isin_nil. repeat split.
Qed.

(* ================================================================== *)
(** * The KPI row *)

Lemma years_In (df : DataFrame) (y : Z) :
  In y (App.years df) <-> exists r, In r df /\ Year r = y.
Proof.
  unfold App.years.
  rewrite (unique_sorted_In Z.compare Z.compare_eq_iff), in_map_iff.
  split; intros (r & H1 & H2); exists r; tauto.
Qed.

Lemma sum_by_country_nonempty (col : Row -> option Z) (dff : DataFrame) (r : Row) :
  In r dff -> notna (Country r) = true -> sum_by_country col dff <> [].
Proof.
  intros Hr Hc E.
  destruct (Country r) as [c|] eqn:Ec; [|discriminate Hc].
  assert (Hin : In c (map fst (sum_by_country col dff))).
  { rewrite sum_by_country_keys.
    apply (proj2 (unique_sorted_In str_cmp str_cmp_eq _ _)).
    apply (proj2 (keys_of_In _ _ _)). now exists r. }
  rewrite E in Hin. destruct Hin.
Qed.

Lemma idxmax_nonempty {K : Type} (s : list (K * Z)) :
  s <> [] -> exists k, idxmax s = Ok k.
Proof.
  destruct s as [|x s]; [congruence|]. intros _. simpl. eauto.
Qed.

Lemma kpis_defined (dff : DataFrame) (r : Row) :
  In r dff -> notna (Country r) = true ->
  (exists k, App.kpis dff = Ok k) /\ (exists k, App1.kpis dff = Ok k).
Proof.
  intros Hr Hc.
  destruct (idxmax_nonempty (sum_by_country Medals dff)
              (sum_by_country_nonempty Medals dff r Hr Hc)) as [c Hk].
  unfold App.kpis, App.top_country, App1.kpis, App1.k4.
  rewrite Hk. simpl. eauto.
Qed.

(** C10.  In a table where no row lacks its country, as the canonical
    table is, a year range whose bounds are years of the table, the lower
    one first, leaves a non-empty filtered table, and the KPI row of
    either dashboard, the arg-max of the summed Medals included, is
    computed without raising. *)
Theorem C10_kpis_defined (df : DataFrame) (a b : Z) :
  no_missing_country df ->
  In a (App.years df) -> In b (App.years df) -> a <= b ->
  App.dff (a, b) df <> []
  /\ (exists k, App.kpis (App.dff (a, b) df) = Ok k)
  /\ App1.dff (a, b) df <> []
  /\ (exists k, App1.kpis (App1.dff (a, b) df) = Ok k).
Proof.
  intros Hc Ha Hb Hab.
  apply (proj1 (years_In _ _)) in Ha. destruct Ha as (r & Hr & Hy).
  assert (Hin : In r (App.dff (a, b) df)).
  { apply filter_In. split; [exact Hr|]. apply mask_true. lia. }
  assert (Hne : App.dff (a, b) df <> []).
  { intros E. rewrite E in Hin. destruct Hin. }
  unfold no_missing_country in Hc. rewrite Forall_forall in Hc.
  destruct (kpis_defined (App.dff (a, b) df) r Hin (Hc r Hr)) as [H1 H2].
  repeat split; assumption.
Qed.

Lemma C10_kpis_defined_witness :
  App.dff (2012, 2016) example_df <> []
  /\ (exists k, App.kpis (App.dff (2012, 2016) example_df) = Ok k)
  /\ App1.dff (2012, 2016) example_df <> []
  /\ (exists k, App1.kpis (App1.dff (2012, 2016) example_df) = Ok k).
Proof.
  apply (C10_kpis_defined example_df 2012 2016).
  - repeat constructor.
  - vm_compute. left. reflexivity.
  - vm_compute. right. left. reflexivity.
  - discriminate.
Defined.

(** The table [App1.load_data] returns is canonical in that sense. *)
Lemma App1_load_data_no_missing_country (csv : list Raw.Row) (df : DataFrame) :
  App1.load_data csv = Ok df -> no_missing_country df.
Proof.
  intros H. eapply Forall_impl; [|exact (App1_load_data_canonical csv df H)].
  intros r [(c & Hc & _) _]. now rewrite Hc.
Qed.

(* ================================================================== *)
(** * Parameters outside the range of the widgets *)






(* ================================================================== *)
(** * The order of binary64 numbers *)

Module F64Facts.

Ltac cmp_cases :=
  repeat match goal with
  | |- context [Pos.compare_cont Eq ?a ?b] =>
      change (Pos.compare_cont Eq a b) with (Pos.compare a b)
  | H : context [Pos.compare_cont Eq ?a ?b] |- _ =>
      change (Pos.compare_cont Eq a b) with (Pos.compare a b) in H
  end;
  repeat match goal with
  | |- context [Z.compare ?a ?b] => destruct (Z.compare_spec a b)
  | H : context [Z.compare ?a ?b] |- _ => destruct (Z.compare_spec a b)
  | |- context [Pos.compare ?a ?b] => destruct (Pos.compare_spec a b)
  | H : context [Pos.compare ?a ?b] |- _ => destruct (Pos.compare_spec a b)
  end;
  simpl in *; subst; try discriminate; try reflexivity; try lia.

Lemma SFleb_total (a b : spec_float) :
  a <> S754_nan -> b <> S754_nan -> SFleb a b = false -> SFleb b a = true.
Proof.
  unfold SFleb.
  destruct a as [sa|sa| |sa ma ea], b as [sb|sb| |sb mb eb]; simpl;
    try congruence;
    try (destruct sa; simpl; congruence); try (destruct sb; simpl; congruence);
    try (destruct sa, sb; simpl; congruence).
  intros _ _. destruct sa, sb; simpl; try congruence; cmp_cases.
Qed.

Lemma SFleb_trans (a b c : spec_float) :
  SFleb a b = true -> SFleb b c = true -> SFleb a c = true.
Proof.
  unfold SFleb.
  destruct a as [sa|sa| |sa ma ea], b as [sb|sb| |sb mb eb],
    c as [sc|sc| |sc mc ec]; simpl;
    try discriminate; try reflexivity;
    try (destruct sa; simpl; try discriminate; try reflexivity);
    try (destruct sb; simpl; try discriminate; try reflexivity);
    try (destruct sc; simpl; try discriminate; try reflexivity).
  all: intros H1 H2; cmp_cases.
Qed.

Lemma SFleb_ltb (a b : spec_float) : SFleb b a = true -> SFltb a b = false.
Proof.
  unfold SFleb, SFltb.
  destruct a as [sa|sa| |sa ma ea], b as [sb|sb| |sb mb eb]; simpl;
    try congruence;
    try (destruct sa; simpl; congruence); try (destruct sb; simpl; congruence);
    try (destruct sa, sb; simpl; congruence).
  destruct sa, sb; simpl; try congruence; intros H; cmp_cases.
Qed.

Lemma SFeqb_refl (a : spec_float) : a <> S754_nan -> SFeqb a a = true.
Proof.
  unfold SFeqb. destruct a as [sa|sa| |sa ma ea]; simpl; try congruence.
  - now destruct sa.
  - intros _. destruct sa; rewrite Z.compare_refl;
      change (Pos.compare_cont Eq ma ma) with (Pos.compare ma ma);
      now rewrite Pos.compare_refl.
Qed.

Lemma is_nan_spec (x : float) :
  PrimFloat.is_nan x = true <-> Prim2SF x = S754_nan.
Proof.
  unfold PrimFloat.is_nan. rewrite FloatAxioms.eqb_spec. split.
  - intros H. destruct (Prim2SF x) eqn:E; try reflexivity;
      rewrite SFeqb_refl in H; discriminate.
  - intros ->. reflexivity.
Qed.

Lemma not_nan_spec (x : float) :
  PrimFloat.is_nan x = false -> Prim2SF x <> S754_nan.
Proof.
  intros H E. apply is_nan_spec in E. congruence.
Qed.

Lemma leb_total (x y : float) :
  PrimFloat.is_nan x = false -> PrimFloat.is_nan y = false ->
  PrimFloat.leb x y = false -> PrimFloat.leb y x = true.
Proof.
  rewrite !FloatAxioms.leb_spec. intros Hx Hy.
  apply SFleb_total; now apply not_nan_spec.
Qed.

Lemma leb_trans (x y z : float) :
  PrimFloat.leb x y = true -> PrimFloat.leb y z = true ->
  PrimFloat.leb x z = true.
Proof. rewrite !FloatAxioms.leb_spec. apply SFleb_trans. Qed.

Lemma leb_ltb (x y : float) :
  PrimFloat.leb y x = true -> PrimFloat.ltb x y = false.
Proof. rewrite FloatAxioms.leb_spec, FloatAxioms.ltb_spec. apply SFleb_ltb. Qed.

Lemma ltb_nan_r (x y : float) :
  PrimFloat.is_nan y = true -> PrimFloat.ltb x y = false.
Proof.
  rewrite is_nan_spec, FloatAxioms.ltb_spec. intros ->.
  unfold SFltb. now destruct (Prim2SF x).
Qed.

Lemma ltb_nan_l (x y : float) :
  PrimFloat.is_nan x = true -> PrimFloat.ltb x y = false.
Proof.
  rewrite is_nan_spec, FloatAxioms.ltb_spec. now intros ->.
Qed.

Lemma leb_not_nan_l (x y : float) :
  PrimFloat.leb x y = true -> PrimFloat.is_nan x = false.
Proof.
  rewrite FloatAxioms.leb_spec. intros H.
  destruct (PrimFloat.is_nan x) eqn:E; [|reflexivity].
  apply is_nan_spec in E. rewrite E in H. discriminate H.
Qed.

Lemma leb_not_nan_r (x y : float) :
  PrimFloat.leb x y = true -> PrimFloat.is_nan y = false.
Proof.
  rewrite FloatAxioms.leb_spec. intros H.
  destruct (PrimFloat.is_nan y) eqn:E; [|reflexivity].
  apply is_nan_spec in E. rewrite E in H.
  unfold SFleb in H. destruct (Prim2SF x); discriminate H.
Qed.

Lemma filter_split_perm {A : Type} (f : A -> bool) (l : list A) :
  Permutation (filter (fun a => negb (f a)) l ++ filter f l) l.
Proof.
  induction l as [|a l IH]; simpl; [reflexivity|].
  destruct (f a); simpl.
  - rewrite <- Permutation_middle. now constructor.
  - now constructor.
Qed.

Lemma StronglySorted_app {A : Type} (R : A -> A -> Prop) (l1 l2 : list A) :
  StronglySorted R l1 -> StronglySorted R l2 ->
  (forall a b, In a l1 -> In b l2 -> R a b) ->
  StronglySorted R (l1 ++ l2).
Proof.
  induction 1 as [|x l1 H1 IH Hall]; simpl; intros H2 Hx; [exact H2|].
  constructor.
  - apply IH; [exact H2|]. intros a b Ha Hb. apply Hx; [now right|exact Hb].
  - apply Forall_app. split; [exact Hall|].
    apply Forall_forall. intros b Hb. apply Hx; [now left|exact Hb].
Qed.

Lemma StronglySorted_impl_on {A : Type} (P : A -> Prop) (R T : A -> A -> Prop)
    (l : list A) :
  (forall a b, P a -> P b -> R a b -> T a b) ->
  Forall P l -> StronglySorted R l -> StronglySorted T l.
Proof.
  intros HRT HP. induction 1 as [|x l Hl IH Hall]; [constructor|].
  inversion HP as [|? ? Px HP']; subst.
  constructor; [now apply IH|].
  rewrite Forall_forall in *. intros b Hb. apply HRT; auto.
Qed.

(** Sorting the rows of a domain [P] on which [le] is a total preorder. *)
Lemma sort_sorted_on {A : Type} (P : A -> Prop) (le : A -> A -> bool)
    (l : list A) :
  (forall x y, P x -> P y -> le x y = false -> le y x = true) ->
  (forall x y z, le x y = true -> le y z = true -> le x z = true) ->
  (forall x y, le x y = true -> P y) ->
  Forall P l ->
  StronglySorted (fun a b => le a b = true) (Pandas.sort le l).
Proof.
  intros Htot Htr Hdom HP.
  assert (HP' : Forall P (Pandas.sort le l)).
  { rewrite Forall_forall in *. intros x Hx. apply HP.
    exact (Permutation_in _ (PandasFacts.sort_perm le l) Hx). }
  apply (StronglySorted_impl_on P
           (fun a b => P a -> P b -> le a b = true)); [auto|exact HP'|].
  apply (PandasFacts.sort_sorted le (fun _ _ => True)
           (fun a b => P a -> P b -> le a b = true)).
  - auto.
  - intros x y H Py Px. now apply Htot.
  - intros x y z Hxy _ Hyz Px Pz. apply (Htr x y z Hxy).
    apply Hyz; [exact (Hdom x y Hxy)|exact Pz].
  - apply PandasFacts.StronglySorted_True.
Qed.

Section SortFloatFacts.
Context {A : Type} (by_ : A -> float).

Let ok (a : A) : Prop := F64.isnan by_ a = false.

Lemma filter_ok (l : list A) :
  Forall ok (filter (fun a => negb (F64.isnan by_ a)) l).
Proof.
  apply Forall_forall. intros a Ha. apply filter_In in Ha.
  destruct Ha as [_ Ha]. now apply negb_true_iff in Ha.
Qed.

Lemma f64_sort_values_perm (asc : bool) (l : list A) :
  Permutation (F64.sort_values by_ asc l) l.
Proof.
  unfold F64.sort_values.
  destruct asc; rewrite PandasFacts.sort_perm; apply filter_split_perm.
Qed.

(** Descending: no row is followed by a row of a larger value; the rows
    without a value come last. *)
Lemma f64_sort_values_descending (l : list A) :
  StronglySorted (fun a b => PrimFloat.ltb (by_ a) (by_ b) = false)
    (F64.sort_values by_ false l).
Proof.
  unfold F64.sort_values. apply StronglySorted_app.
  - apply (StronglySorted_impl_on ok
             (fun a b => PrimFloat.leb (by_ b) (by_ a) = true)).
    + intros a b _ _. apply leb_ltb.
    + rewrite Forall_forall. intros a Ha. apply (proj1 (Forall_forall _ _) (filter_ok l)).
      exact (Permutation_in _ (PandasFacts.sort_perm _ _) Ha).
    + apply (sort_sorted_on ok); [| | |apply filter_ok].
      * intros x y Hx Hy. now apply leb_total.
      * intros x y z Hxy Hyz. exact (leb_trans _ _ _ Hyz Hxy).
      * intros x y Hxy. exact (leb_not_nan_l _ _ Hxy).
  - apply (StronglySorted_impl_on (fun a => F64.isnan by_ a = true)
             (fun _ _ => True)).
    + intros a b Ha _ _. now apply ltb_nan_l.
    + apply Forall_forall. intros a Ha. now apply filter_In in Ha.
    + apply PandasFacts.StronglySorted_True.
  - intros a b _ Hb. apply filter_In in Hb. destruct Hb as [_ Hb].
    now apply ltb_nan_r.
Qed.

Lemma f64_sort_values_ascending (l : list A) :
  StronglySorted (fun a b => PrimFloat.ltb (by_ b) (by_ a) = false)
    (F64.sort_values by_ true l).
Proof.
  unfold F64.sort_values. apply StronglySorted_app.
  - apply (StronglySorted_impl_on ok
             (fun a b => PrimFloat.leb (by_ a) (by_ b) = true)).
    + intros a b _ _. apply leb_ltb.
    + rewrite Forall_forall. intros a Ha.
      apply (proj1 (Forall_forall _ _) (filter_ok l)).
      exact (Permutation_in _ (PandasFacts.sort_perm _ _) Ha).
    + apply (sort_sorted_on ok); [| | |apply filter_ok].
      * intros x y Hx Hy. now apply leb_total.
      * intros x y z Hxy Hyz. exact (leb_trans _ _ _ Hxy Hyz).
      * intros x y Hxy. exact (leb_not_nan_r _ _ Hxy).
  - apply (StronglySorted_impl_on (fun a => F64.isnan by_ a = true)
             (fun _ _ => True)).
    + intros a b _ Hb _. now apply ltb_nan_l.
    + apply Forall_forall. intros a Ha. now apply filter_In in Ha.
    + apply PandasFacts.StronglySorted_True.
  - intros a b _ Hb. apply filter_In in Hb. destruct Hb as [_ Hb].
    now apply ltb_nan_l.
Qed.

Lemma f64_nlargest_length (n : Z) (l : list A) :
  0 < n ->
  List.length (F64.nlargest by_ n l) = Nat.min (Z.to_nat n) (List.length l).
Proof.
  intros Hn. unfold F64.nlargest.
  destruct (n <=? 0) eqn:E; [apply Z.leb_le in E; lia|].
  rewrite length_firstn.
  now rewrite (Permutation_length (f64_sort_values_perm false l)).
Qed.

Lemma f64_nlargest_incl (n : Z) (l : list A) (a : A) :
  In a (F64.nlargest by_ n l) -> In a l.
Proof.
  unfold F64.nlargest. destruct (n <=? 0); [intros []|].
  intros H. apply (Permutation_in _ (f64_sort_values_perm false l)).
  rewrite <- (firstn_skipn (Z.to_nat n)). apply in_or_app. now left.
Qed.

(** No row that [nlargest] leaves out has a larger value than a row it
    keeps. *)
Lemma f64_nlargest_first (n : Z) (l : list A) (a b : A) :
  In a (F64.nlargest by_ n l) -> In b l -> ~ In b (F64.nlargest by_ n l) ->
  PrimFloat.ltb (by_ a) (by_ b) = false.
Proof.
  unfold F64.nlargest. destruct (n <=? 0); [intros []|].
  intros Ha Hb Hnb.
  apply (PandasFacts.sorted_firstn_skipn
           (fun a b => PrimFloat.ltb (by_ a) (by_ b) = false)
           (Z.to_nat n) (F64.sort_values by_ false l)).
  - apply f64_sort_values_descending.
  - exact Ha.
  - apply (Permutation_in _ (Permutation_sym (f64_sort_values_perm false l))) in Hb.
    rewrite <- (firstn_skipn (Z.to_nat n)) in Hb.
    apply in_app_or in Hb. tauto.
Qed.

End SortFloatFacts.

End F64Facts.

(* ================================================================== *)
(** * The gold conversion rate *)

Lemma conv_sums_In (dff : DataFrame) (c : string) (g m : Z) :
  In (c, (g, m)) (App1.conv_sums dff) <->
  In c (keys_of Country dff)
  /\ g = sum (map Golds (filter (of_country c) dff))
  /\ m = sum (map Medals (filter (of_country c) dff)).
Proof.
  unfold App1.conv_sums, by_country, groupby.
  rewrite map_map. simpl. rewrite in_map_iff. split.
  - intros (k & E & Hk). injection E as E1 E2 E3. subst k.
    apply (proj1 (unique_sorted_In str_cmp str_cmp_eq _ _)) in Hk.
    repeat split; [exact Hk|now symmetry|now symmetry].
  - intros (Hk & -> & ->). exists c. split; [reflexivity|].
    now apply (proj2 (unique_sorted_In str_cmp str_cmp_eq _ _)).
Qed.

Lemma conv_kept_In (dff : DataFrame) (c : string) (g m : Z) :
  In (c, (g, m)) (App1.conv_kept dff) <->
  In (c, (g, m)) (App1.conv_sums dff) /\ 20 <= m.
Proof.
  unfold App1.conv_kept. rewrite filter_In. simpl.
  now rewrite Z.leb_le.
Qed.

Lemma conv_rows_In (dff : DataFrame) (c : string) (g m : Z) (pct : float) :
  In (conv c g m pct) (App1.conv_rows dff) <->
  In (c, (g, m)) (App1.conv_kept dff) /\ pct = App1.gold_pct g m.
Proof.
  unfold App1.conv_rows. rewrite in_map_iff. split.
  - intros ([c' [g' m']] & E & He). simpl in E.
    injection E as -> -> -> <-. auto.
  - intros [He ->]. now exists (c, (g, m)).
Qed.

Lemma conv_df_perm (top_n : Z) (dff : DataFrame) :
  Permutation (App1.conv_df top_n dff)
    (F64.nlargest App1.Gold_pct top_n (App1.conv_rows dff)).
Proof. apply F64Facts.f64_sort_values_perm. Qed.

(** C9.  The rows that reach the division of the conversion view are
    those the threshold keeps: each has summed Medals of at least 20, so
    the divisor of [Golds / Medals] is never zero; the same holds of
    every row of the chart. *)
Theorem C9_conv_denominator_positive (top_n : Z) (dff : DataFrame) :
  Forall (fun e => 20 <= snd (snd e) /\ snd (snd e) <> 0) (App1.conv_kept dff)
  /\ Forall (fun r => 20 <= App1.conv_Medals r /\ App1.conv_Medals r <> 0
                      /\ App1.Gold_pct r
                         = App1.gold_pct (App1.conv_Golds r) (App1.conv_Medals r))
       (App1.conv_rows dff)
  /\ Forall (fun r => 20 <= App1.conv_Medals r /\ App1.conv_Medals r <> 0)
       (App1.conv_df top_n dff).
Proof.
  assert (H1 : Forall (fun e => 20 <= snd (snd e) /\ snd (snd e) <> 0)
                 (App1.conv_kept dff)).
  { apply Forall_forall. intros e He. apply filter_In in He.
    destruct He as [_ He]. apply Z.leb_le in He. lia. }
  assert (H2 : Forall (fun r => 20 <= App1.conv_Medals r
                                /\ App1.conv_Medals r <> 0
                                /\ App1.Gold_pct r
                                   = App1.gold_pct (App1.conv_Golds r)
                                       (App1.conv_Medals r))
                 (App1.conv_rows dff)).
  { apply Forall_forall. intros r Hr. apply in_map_iff in Hr.
    destruct Hr as (e & <- & He). simpl.
    rewrite Forall_forall in H1. destruct (H1 e He). auto. }
  repeat split; try assumption.
  apply Forall_forall. intros r Hr.
  apply (Permutation_in _ (conv_df_perm top_n dff)) in Hr.
  apply F64Facts.f64_nlargest_incl in Hr.
  rewrite Forall_forall in H2. destruct (H2 r Hr) as (Ha & Hb & _). auto.
Qed.

(** The example table is what either [load_data] returns on its CSV, and
    its years span the full range. *)
Lemma example_loaded :
  App.load_data example_csv = Ok example_df
  /\ App1.load_data example_csv = Ok example_df
  /\ App1.years example_df = [2012; 2016].
Proof. repeat split. Qed.

Lemma conv_df_example (n : Z) :
  2 <= n ->
  App1.conv_df n (App1.dff (2012, 2016) example_df)
  = [conv "CHN" 26 70 37.1; conv "USA" 92 225 40.9].
Proof.
  intros Hn. unfold App1.conv_df, F64.nlargest.
  destruct (n <=? 0) eqn:E; [apply Z.leb_le in E; lia|].
  replace (F64.sort_values App1.Gold_pct false
             (App1.conv_rows (App1.dff (2012, 2016) example_df)))
    with [conv "USA" 92 225 40.9; conv "CHN" 26 70 37.1]
    by (vm_compute; reflexivity).
  rewrite firstn_all2 by (simpl; lia).
  vm_compute. reflexivity.
Qed.

(** C3, counterexample.  The percentage is not the one of the claim's
    formula, which multiplies first: for 23 Golds of 80 Medals,
    [100 * 23 / 80] is 28.75 exactly and rounds to 28.8, while the code
    divides first, [23 / 80 * 100] falls just below 28.75 and the view
    holds 28.7. *)
Lemma C3_product_first_differs :
  App1.conv_rows df_23_of_80 = [conv "KEN" 23 80 28.7]
  /\ App1.conv_df 10 df_23_of_80 = [conv "KEN" 23 80 28.7]
  /\ spec_percent 23 80 = 28.8%float
  /\ PrimFloat.eqb 28.7 (spec_percent 23 80) = false.
Proof. repeat split; vm_compute; reflexivity. Qed.

(** C3, amended: the percentage is the quotient times 100, rounded.
    Part 1, for every ranking size and every filtered table: the
    conversion view keeps exactly the countries whose summed Medals is
    at least 20, each with its summed Golds and Medals and the percentage
    [(Golds / Medals * 100).round(1)], computed in binary64; the chart
    shows rows of that view, [min top_n (number of kept countries)] of
    them when [top_n] is positive, and no country left out has a larger
    percentage than a country shown.  Part 2, on the example table over
    the full year range: USA has 40.9 and CHN has 37.1, both shown
    whenever the size is at least 2, and the ranking of size 1 is USA. *)
Theorem C3_gold_conversion_rate :
  (forall (top_n : Z) (dff : DataFrame),
      (forall c g m pct,
          In (conv c g m pct) (App1.conv_rows dff) <->
          In c (keys_of Country dff)
          /\ g = sum (map Golds (filter (of_country c) dff))
          /\ m = sum (map Medals (filter (of_country c) dff))
          /\ 20 <= m
          /\ pct = F64.round1
                     (PrimFloat.mul
                        (PrimFloat.div (F64.of_Z g) (F64.of_Z m)) 100))
      /\ incl (App1.conv_df top_n dff) (App1.conv_rows dff)
      /\ (0 < top_n ->
          List.length (App1.conv_df top_n dff)
          = Nat.min (Z.to_nat top_n) (List.length (App1.conv_rows dff)))
      /\ (forall a b,
             In a (App1.conv_df top_n dff) ->
             In b (App1.conv_rows dff) ->
             ~ In b (App1.conv_df top_n dff) ->
             PrimFloat.ltb (App1.Gold_pct a) (App1.Gold_pct b) = false))
  /\ (forall n, 2 <= n ->
        App1.conv_df n (App1.dff (2012, 2016) example_df)
        = [conv "CHN" 26 70 37.1; conv "USA" 92 225 40.9])
  /\ App1.conv_df 1 (App1.dff (2012, 2016) example_df)
     = [conv "USA" 92 225 40.9].
Proof.
  split; [|split; [exact conv_df_example|vm_compute; reflexivity]].
  intros top_n dff. split; [|split; [|split]].
  - intros c g m pct.
    rewrite conv_rows_In, conv_kept_In, conv_sums_In.
    unfold App1.gold_pct. tauto.
  - intros r Hr.
    apply (Permutation_in _ (conv_df_perm top_n dff)) in Hr.
    exact (F64Facts.f64_nlargest_incl _ _ _ _ Hr).
  - intros Hn.
    rewrite (Permutation_length (conv_df_perm top_n dff)).
    now apply F64Facts.f64_nlargest_length.
  - intros a b Ha Hb Hnb.
    apply (Permutation_in _ (conv_df_perm top_n dff)) in Ha.
    apply (F64Facts.f64_nlargest_first App1.Gold_pct top_n (App1.conv_rows dff));
      [exact Ha|exact Hb|].
    intros H. apply Hnb.
    exact (Permutation_in _ (Permutation_sym (conv_df_perm top_n dff)) H).
Qed.

(* ================================================================== *)
(** * The decade heatmap *)

Lemma cmp_pair_eq {A B : Type} (ca : A -> A -> comparison)
    (cb : B -> B -> comparison) :
  (forall a a', ca a a' = Eq <-> a = a') ->
  (forall b b', cb b b' = Eq <-> b = b') ->
  forall x y, cmp_pair ca cb x y = Eq <-> x = y.
Proof.
  intros Ha Hb [a b] [a' b']. unfold cmp_pair. simpl.
  destruct (ca a a') eqn:E.
  - apply Ha in E. subst a'. rewrite Hb. split; congruence.
  - split; [discriminate|]. intros H. injection H as H1 H2.
    apply Ha in H1. congruence.
  - split; [discriminate|]. intros H. injection H as H1 H2.
    apply Ha in H1. congruence.
Qed.

Lemma cmp2_eq (x y : string * string) : cmp2 x y = Eq <-> x = y.
Proof. apply cmp_pair_eq; exact str_cmp_eq. Qed.

(** Looking a key up in a Series whose values are a function of the key. *)
Lemma lookup_map {K V : Type} (cmp : K -> K -> comparison) (f : K -> V)
    (k : K) (ks : list K) :
  (forall a b, cmp a b = Eq <-> a = b) ->
  lookup cmp k (map (fun k => (k, f k)) ks)
  = if existsb (fun k' => key_eqb cmp k' k) ks then Some (f k) else None.
Proof.
  intros Heq. induction ks as [|k' ks IH]; simpl; [reflexivity|].
  destruct (key_eqb cmp k' k) eqn:E; simpl; [|exact IH].
  apply (key_eqb_eq cmp Heq) in E. now subst.
Qed.

Lemma existsb_key {K : Type} (cmp : K -> K -> comparison) (k : K) (ks : list K) :
  (forall a b, cmp a b = Eq <-> a = b) ->
  existsb (fun k' => key_eqb cmp k' k) ks = true <-> In k ks.
Proof.
  intros Heq. rewrite existsb_exists. split.
  - intros (k' & Hin & E). apply (key_eqb_eq cmp Heq) in E. now subst.
  - intros Hin. exists k. split; [exact Hin|].
    now apply (key_eqb_eq cmp Heq).
Qed.

Lemma isin_In (names : list string) (c : string) :
  Str.isin names c = true <-> In c names.
Proof.
  unfold Str.isin. rewrite existsb_exists. split.
  - intros (x & Hin & E). apply String.eqb_eq in E. now subst.
  - intros Hin. exists c. split; [exact Hin|apply String.eqb_refl].
Qed.

Lemma reindex_loc (f : Frame) (order : list string) (c d : string) :
  In c order -> In c (index f) ->
  loc (reindex f order) c d = loc f c d.
Proof.
  intros Ho Hi.
  destruct (get_loc_nth str_cmp str_cmp_eq
              (fun c => match get_loc str_cmp c (index f) with
                        | Some i => nth i (data f) []
                        | None => map (fun _ => None) (columns f)
                        end) [] c order Ho) as (i' & Hi' & Hn & _).
  destruct (get_loc_nth str_cmp str_cmp_eq (fun c => c) c c (index f) Hi)
    as (i & Hloc & _).
  unfold loc, reindex. simpl. rewrite Hi', Hloc.
  destruct (get_loc str_cmp d (columns f)); [|reflexivity].
  rewrite Hn, Hloc. reflexivity.
Qed.

(** A cell of [unstack] is the entry of the Series, or the fill value. *)
Lemma unstack_loc (fill : Z) (s : list ((string * string) * Z)) (c d : string) :
  In c (map (fun e => fst (fst e)) s) ->
  In d (map (fun e => snd (fst e)) s) ->
  loc (unstack fill s) c d
  = Some (match lookup cmp2 (c, d) s with
          | Some v => Some v
          | None => Some fill
          end).
Proof.
  intros Hc Hd.
  apply (proj2 (unique_sorted_In str_cmp str_cmp_eq _ _)) in Hc, Hd.
  set (cols := unique_sorted str_cmp (map (fun e => snd (fst e)) s)) in *.
  set (idx := unique_sorted str_cmp (map (fun e => fst (fst e)) s)) in *.
  set (cell := fun c d => match lookup cmp2 (c, d) s with
                          | Some v => Some v
                          | None => Some fill
                          end).
  destruct (get_loc_nth str_cmp str_cmp_eq
              (fun c => map (cell c) cols) [] c idx Hc) as (i & Hi & Hn & _).
  destruct (get_loc_nth str_cmp str_cmp_eq (cell c) None d cols Hd)
    as (j & Hj & _ & Hn').
  unfold loc, unstack. simpl. fold cols idx.
  rewrite Hi, Hj.
  change (nth_error (nth i (map (fun c => map (cell c) cols) idx) []) j
          = Some (cell c d)).
  now rewrite Hn.
Qed.

Lemma to_int_proper (z : Z) :
  Z.to_int z <> Decimal.Pos Decimal.Nil /\ Z.to_int z <> Decimal.Neg Decimal.Nil.
Proof.
  destruct z; simpl; split; try discriminate;
    intros E; injection E as E; exact (DecimalPos.Unsigned.to_uint_nonnil _ E).
Qed.

Lemma str_of_Z_inj (a b : Z) : str_of_Z a = str_of_Z b -> a = b.
Proof.
  unfold str_of_Z. intros E.
  apply DecimalZ.to_int_inj.
  destruct (to_int_proper a) as [A1 A2], (to_int_proper b) as [B1 B2].
  pose proof (DecimalString.NilZero.isi _ A1 A2) as Ha.
  pose proof (DecimalString.NilZero.isi _ B1 B2) as Hb.
  rewrite E in Ha. congruence.
Qed.

Lemma append_inj_l (s1 s2 : string) (c : ascii) :
  (s1 ++ String c "")%string = (s2 ++ String c "")%string -> s1 = s2.
Proof.
  revert s2. induction s1 as [|a s1 IH]; intros [|b s2]; simpl; intros E.
  - reflexivity.
  - injection E as -> E. destruct s2; discriminate E.
  - injection E as -> E. destruct s1; discriminate E.
  - injection E as -> E. f_equal. now apply IH.
Qed.

(** Two decades have the same label only when they are the same. *)
Lemma Decade_label_inj (a b : Z) : Decade_label a = Decade_label b -> a = b.
Proof.
  unfold Decade_label. intros E.
  apply str_of_Z_inj. exact (append_inj_l _ _ _ E).
Qed.

(** A year is in the decade [D] when it is one of the ten years from [D]
    on. *)
Lemma Decade_range (r r0 : Row) :
  Decade r = Decade r0 <->
  Year r0 / 10 * 10 <= Year r <= Year r0 / 10 * 10 + 9.
Proof.
  unfold Decade. split.
  - intros E. apply Decade_label_inj in E. Z.div_mod_to_equations. lia.
  - intros H. f_equal. Z.div_mod_to_equations. lia.
Qed.

Lemma filter_filter_ext {A : Type} (f g h : A -> bool) (l : list A) :
  (forall a, f a && g a = h a) -> filter g (filter f l) = filter h l.
Proof.
  intros H. induction l as [|a l IH]; simpl; [reflexivity|].
  rewrite <- (H a). destruct (f a); simpl; [|exact IH].
  destruct (g a); now rewrite IH.
Qed.

Lemma Country_Decade_key (r : Row) (c l : string) :
  has_key cmp2 Country_Decade (c, l) r = true <->
  Country r = Some c /\ Decade r = l.
Proof.
  rewrite (has_key_true cmp2 cmp2_eq). unfold Country_Decade.
  destruct (Country r) as [c'|]; simpl; split.
  - intros E. injection E as -> ->. auto.
  - intros [E <-]. now injection E as ->.
  - discriminate.
  - intros [E _]. discriminate E.
Qed.

Lemma of_country_true (c : string) (r : Row) :
  of_country c r = true <-> Country r = Some c.
Proof. apply has_key_true. exact str_cmp_eq. Qed.

Lemma decade_sums_map (top : list string) (dff : DataFrame) :
  decade_sums top dff
  = map (fun k => (k, sum (map Medals
                            (filter (has_key cmp2 Country_Decade k)
                               (filter (country_isin top) dff)))))
        (unique_sorted cmp2
           (keys_of Country_Decade (filter (country_isin top) dff))).
Proof.
  unfold decade_sums, groupby_sum, groupby. now rewrite map_map.
Qed.

Lemma decade_sums_key (top : list string) (dff : DataFrame) (c l : string) :
  In (c, l) (map fst (decade_sums top dff)) <->
  exists r, In r dff /\ country_isin top r = true
            /\ Country r = Some c /\ Decade r = l.
Proof.
  unfold decade_sums.
  rewrite (groupby_sum_keys cmp2),
    (unique_sorted_In cmp2 cmp2_eq), keys_of_In.
  split.
  - intros (r & Hr & Hk). apply filter_In in Hr. destruct Hr as [Hr Ht].
    exists r. split; [exact Hr|]. split; [exact Ht|].
    apply Country_Decade_key. apply (has_key_true cmp2 cmp2_eq). exact Hk.
  - intros (r & Hr & Ht & Hc & Hl). exists r. split.
    + apply filter_In. auto.
    + apply (has_key_true cmp2 cmp2_eq). now apply Country_Decade_key.
Qed.

(** The entry of a (country, decade) pair, or 0 when it has none, is the
    sum of the Medals of the rows of that pair. *)
Lemma decade_sums_lookup (top : list string) (dff : DataFrame) (c l : string) :
  match lookup cmp2 (c, l) (decade_sums top dff) with
  | Some v => Some v
  | None => Some 0
  end
  = Some (sum (map Medals (filter (has_key cmp2 Country_Decade (c, l))
                             (filter (country_isin top) dff)))).
Proof.
  rewrite decade_sums_map, (lookup_map cmp2 _ _ _ cmp2_eq).
  destruct (existsb _ _) eqn:E; [reflexivity|].
  f_equal.
  destruct (filter (has_key cmp2 Country_Decade (c, l))
              (filter (country_isin top) dff)) as [|r rows] eqn:F;
    [reflexivity|].
  exfalso.
  assert (Hr : In r (filter (has_key cmp2 Country_Decade (c, l))
                       (filter (country_isin top) dff)))
    by (rewrite F; now left).
  apply filter_In in Hr. destruct Hr as [Hr Hk].
  assert (Hin : In (c, l)
                  (unique_sorted cmp2
                     (keys_of Country_Decade (filter (country_isin top) dff)))).
  { apply (proj2 (unique_sorted_In cmp2 cmp2_eq _ _)).
    apply (proj2 (keys_of_In _ _ _)). exists r. split; [exact Hr|].
    now apply (has_key_true cmp2 cmp2_eq). }
  apply (existsb_key cmp2 _ _ cmp2_eq) in Hin. congruence.
Qed.

Lemma map_fst_fst {A B C : Type} (s : list ((A * B) * C)) (a : A) (b : B) :
  In (a, b) (map fst s) ->
  In a (map (fun e => fst (fst e)) s) /\ In b (map (fun e => snd (fst e)) s).
Proof.
  intros H. apply in_map_iff in H. destruct H as ([[a' b'] v] & E & H).
  simpl in E. injection E as -> ->.
  split; apply in_map_iff; exists ((a, b), v); auto.
Qed.

Lemma map_snd_fst {A B C : Type} (s : list ((A * B) * C)) (b : B) :
  In b (map (fun e => snd (fst e)) s) -> exists a, In (a, b) (map fst s).
Proof.
  intros H. apply in_map_iff in H. destruct H as ([[a b'] v] & E & H).
  simpl in E. subst b'. exists a. apply in_map_iff. now exists ((a, b), v).
Qed.

(** The cell of a country of [top] in a decade that has a column. *)
Lemma decade_sums_cell (top : list string) (dff : DataFrame) (C : string) (D : Z) :
  In C top -> In C (keys_of Country dff) ->
  In (Decade_label D) (map (fun e => snd (fst e)) (decade_sums top dff)) ->
  In C (map (fun e => fst (fst e)) (decade_sums top dff))
  /\ loc (unstack 0 (decade_sums top dff)) C (Decade_label D)
     = Some (Some (sum (map Medals (filter (in_decade C D) dff)))).
Proof.
  intros Htop HC HD.
  assert (Hidx : In C (map (fun e => fst (fst e)) (decade_sums top dff))).
  { apply (proj1 (keys_of_In _ _ _)) in HC. destruct HC as (r & Hr & Hc).
    apply (map_fst_fst _ C (Decade r)).
    apply decade_sums_key. exists r. repeat split; auto.
    unfold country_isin. rewrite Hc. now apply isin_In. }
  split; [exact Hidx|].
  rewrite (unstack_loc 0 _ C (Decade_label D) Hidx HD).
  rewrite decade_sums_lookup.
  destruct (map_snd_fst _ _ HD) as (c0 & H0).
  apply decade_sums_key in H0. destruct H0 as (r0 & _ & _ & _ & Hr0).
  assert (HD0 : Year r0 / 10 * 10 = D) by now apply Decade_label_inj.
  rewrite (filter_filter_ext (country_isin top)
             (has_key cmp2 Country_Decade (C, Decade_label D))
             (in_decade C D)); [reflexivity|].
  intros r. apply eq_true_iff_eq.
  rewrite andb_true_iff, Country_Decade_key.
  unfold in_decade. rewrite !andb_true_iff, of_country_true, !Z.leb_le.
  rewrite <- Hr0, Decade_range, HD0.
  unfold country_isin. split.
  - intros (_ & Hc & Hy). repeat split; tauto.
  - intros ((Hc & H1) & H2). rewrite Hc.
    split; [now apply isin_In|]. repeat split; assumption.
Qed.

Lemma top20_keys (dff : DataFrame) (C : string) :
  In C (App.top20 dff) -> In C (keys_of Country dff).
Proof.
  unfold App.top20. intros H. apply in_map_iff in H.
  destruct H as ([c v] & E & H). simpl in E. subst c.
  apply nlargest_incl in H. now apply sum_by_country_In in H.
Qed.

Lemma row_order_In (dff : DataFrame) (C : string) :
  In C (App1.top20_idx dff) -> In C (App1.row_order dff).
Proof.
  intros H. unfold App1.row_order.
  apply (Permutation_in C
           (Permutation_map fst
              (Permutation_sym (sort_values_perm snd false _)))).
  rewrite sum_by_country_keys.
  apply (proj2 (unique_sorted_In str_cmp str_cmp_eq _ _)).
  destruct (proj1 (keys_of_In _ _ _) (top20_keys dff C H)) as (r & Hr & Hc).
  apply (proj2 (keys_of_In _ _ _)). exists r. split; [|exact Hc].
  apply filter_In. split; [exact Hr|].
  unfold country_isin. rewrite Hc. now apply isin_In.
Qed.

(** A cell of the heatmap of either dashboard, in the row of a country
    of the top 20 and in the column of a decade. *)
Lemma heat_df_cell (dff : DataFrame) (C : string) (D : Z) :
  In C (App.top20 dff) ->
  In (Decade_label D) (columns (App.heat_df dff)) ->
  loc (App.heat_df dff) C (Decade_label D)
  = Some (Some (sum (map Medals (filter (in_decade C D) dff))))
  /\ loc (App1.heat_df dff) C (Decade_label D)
     = Some (Some (sum (map Medals (filter (in_decade C D) dff)))).
Proof.
  intros HC HD.
  assert (HD' : In (Decade_label D)
                  (map (fun e => snd (fst e))
                     (decade_sums (App.top20 dff) dff)))
    by exact (proj1 (unique_sorted_In str_cmp str_cmp_eq _ _) HD).
  destruct (decade_sums_cell (App.top20 dff) dff C D HC
              (top20_keys dff C HC) HD') as [Hidx Hcell].
  split; [exact Hcell|].
  unfold App1.heat_df.
  rewrite reindex_loc; [exact Hcell|now apply row_order_In|].
  exact (proj2 (unique_sorted_In str_cmp str_cmp_eq _ _) Hidx).
Qed.

(** The decade of a row of a top-20 country is a column of the frame. *)
Lemma heat_df_column (dff : DataFrame) (r : Row) :
  In r dff -> country_isin (App.top20 dff) r = true ->
  In (Decade r) (columns (App.heat_df dff)).
Proof.
  intros Hr Ht.
  apply (proj2 (unique_sorted_In str_cmp str_cmp_eq _ _)).
  destruct (Country r) as [c|] eqn:Hc;
    [|unfold country_isin in Ht; rewrite Hc in Ht; discriminate Ht].
  apply (map_fst_fst (decade_sums (App.top20 dff) dff) c (Decade r)).
  apply decade_sums_key. exists r. auto.
Qed.

(** C5.  For every filtered table, every country [C] among the 20
    countries with the largest summed Medals and every decade
    [D = floor(Year / 10) * 10] of a row of such a country, the cell of
    the heatmap of either dashboard in the row [C] and the column of [D]
    holds the sum of the Medals of the rows of [C] whose Year is one of
    the ten years from [D] to [D + 9]; when [C] has no row in those years
    the cell holds 0. *)
Theorem C5_decade_heatmap (dff : DataFrame) (C : string) (r : Row) (D : Z) :
  In C (App.top20 dff) ->
  In r dff -> country_isin (App.top20 dff) r = true ->
  D = Year r / 10 * 10 ->
  loc (App.heat_df dff) C (Decade_label D)
  = Some (Some (sum (map Medals (filter (in_decade C D) dff))))
  /\ loc (App1.heat_df dff) C (Decade_label D)
     = Some (Some (sum (map Medals (filter (in_decade C D) dff))))
  /\ (filter (in_decade C D) dff = [] ->
      loc (App.heat_df dff) C (Decade_label D) = Some (Some 0)
      /\ loc (App1.heat_df dff) C (Decade_label D) = Some (Some 0)).
Proof.
  intros HC Hr Ht ->.
  destruct (heat_df_cell dff C (Year r / 10 * 10) HC
              (heat_df_column dff r Hr Ht)) as [H1 H2].
  split; [exact H1|]. split; [exact H2|].
  intros E. rewrite E in H1, H2. auto.
Qed.

(** A decade without a row of a top-20 country has no column in the
    frame: looking it up is a [KeyError]. *)
Lemma heat_df_no_column (dff : DataFrame) (C : string) (D : Z) :
  ~ In (Decade_label D) (columns (App.heat_df dff)) ->
  loc (App.heat_df dff) C (Decade_label D) = None
  /\ loc (App1.heat_df dff) C (Decade_label D) = None.
Proof.
  intros H.
  assert (E : get_loc str_cmp (Decade_label D) (columns (App.heat_df dff))
              = None) by exact (get_loc_None str_cmp str_cmp_eq _ _ H).
  unfold loc. split.
  - rewrite E. now destruct (get_loc str_cmp C _).
  - change (columns (App1.heat_df dff)) with (columns (App.heat_df dff)).
    rewrite E. now destruct (get_loc str_cmp C _).
Qed.

Lemma C5_decade_heatmap_witness :
  loc (App.heat_df example_df) "CHN" (Decade_label 2010)
  = Some (Some (sum (map Medals (filter (in_decade "CHN" 2010) example_df))))
  /\ loc (App1.heat_df example_df) "CHN" (Decade_label 2010)
     = Some (Some (sum (map Medals (filter (in_decade "CHN" 2010) example_df))))
  /\ (filter (in_decade "CHN" 2010) example_df = [] ->
      loc (App.heat_df example_df) "CHN" (Decade_label 2010) = Some (Some 0)
      /\ loc (App1.heat_df example_df) "CHN" (Decade_label 2010)
         = Some (Some 0)).
Proof.
  apply (C5_decade_heatmap example_df "CHN" (row "USA" 2012 1 46 29 29 104) 2010).
  - vm_compute. right. left. reflexivity.
  - right. left. reflexivity.
  - reflexivity.
  - reflexivity.
Defined.

(* ================================================================== *)
(** * More about [load_data] *)

Lemma astype_int_columns (l : list Raw.Row) :
  forall df, astype_int l = Ok df ->
  List.length df = List.length l
  /\ map Country df = map Raw.Country l
  /\ map (fun r => Some (Year r)) df = map Raw.Year l
  /\ map Rank df = map Raw.Rank l
  /\ map Golds df = map Raw.Golds l
  /\ map Silvers df = map Raw.Silvers l
  /\ map Bronzes df = map Raw.Bronzes l
  /\ map Medals df = map Raw.Medals l.
Proof.
  induction l as [|r l IH]; simpl; intros df H.
  - injection H as <-. repeat split.
  - destruct (Raw.Year r) as [y|] eqn:Hy; [|discriminate H].
    destruct (astype_int l) as [df'|e]; simpl in H; [|discriminate H].
    injection H as <-.
    destruct (IH df' eq_refl) as (H0 & H1 & H2 & H3 & H4 & H5 & H6 & H7).
    simpl. rewrite H0, H1, H2, H3, H4, H5, H6, H7. repeat split.
Qed.

(* ================================================================== *)
(** * More about the year slider and the filter *)

Lemma Z_compare_gt (a b : Z) : Z.compare a b = Gt -> Z.compare b a = Lt.
Proof. intros H. apply Z.compare_lt_iff. apply Z.compare_gt_iff in H. lia. Qed.

Lemma Z_compare_trans (a b c : Z) :
  Z.compare a b = Lt -> Z.compare b c = Lt -> Z.compare a c = Lt.
Proof. rewrite !Z.compare_lt_iff. lia. Qed.

Lemma years_sorted (df : DataFrame) : StronglySorted Z.lt (App.years df).
Proof.
  apply (unique_sorted_sorted Z.compare Z.compare_eq_iff
           Z_compare_gt Z_compare_trans).
Qed.

Lemma last_In {A : Type} (l : list A) (d : A) : l <> [] -> In (last l d) l.
Proof.
  induction l as [|a l IH]; [congruence|]. intros _.
  destruct l as [|b l]; [now left|].
  right. apply IH. discriminate.
Qed.

Lemma last_default {A : Type} (l : list A) (d d' : A) :
  l <> [] -> last l d = last l d'.
Proof.
  induction l as [|a l IH]; [congruence|]. intros _.
  destruct l as [|b l]; [reflexivity|].
  apply IH. discriminate.
Qed.

Lemma sorted_last (l : list Z) (d : Z) :
  StronglySorted Z.lt l -> forall x, In x l -> x <= last l d.
Proof.
  induction 1 as [|a l Hl IH Hall]; intros x Hx; [destruct Hx|].
  destruct l as [|b l].
  - destruct Hx as [<-|[]]. simpl. lia.
  - change (last (a :: b :: l) d) with (last (b :: l) d).
    destruct Hx as [<-|Hx]; [|now apply IH].
    assert (Hb : In (last (b :: l) d) (b :: l)) by (apply last_In; discriminate).
    rewrite Forall_forall in Hall. specialize (Hall _ Hb). lia.
Qed.

Lemma filter_all {R : Type} (keep : R -> bool) (rows : list R)
  (Hall : forall r, In r rows -> keep r = true) :
  filter keep rows = rows.
Proof.
  induction rows as [|r rows IH]; simpl; [reflexivity|].
  rewrite (Hall r (or_introl eq_refl)). f_equal.
  apply IH. intros x Hx. apply Hall. now right.
Qed.

(** The options of the year slider are the years of the table, each
    once, in increasing order. *)
Theorem years_options (df : DataFrame) :
  StronglySorted Z.lt (App.years df)
  /\ NoDup (App.years df)
  /\ (forall y, In y (App.years df) <-> exists r, In r df /\ Year r = y)
  /\ App1.years df = App.years df.
Proof.
  split; [apply years_sorted|]. split; [|split; [apply years_In|reflexivity]].
  apply (unique_sorted_NoDup Z.compare Z.compare_eq_iff
           Z_compare_gt Z_compare_trans).
Qed.

(** The range the year slider starts with spans the table: it exists as
    soon as the table has a row, its bounds are the smallest and the
    largest year, and filtering by it keeps every row.  On a table
    without rows there is no such range ([years[0]] fails). *)
Theorem default_year_range_keeps_all (df : DataFrame) :
  (df = [] <-> App.default_year_range df = None)
  /\ (forall yr, App.default_year_range df = Some yr ->
        In (fst yr) (App.years df) /\ In (snd yr) (App.years df)
        /\ (forall r, In r df -> fst yr <= Year r <= snd yr)
        /\ App.dff yr df = df
        /\ App1.dff yr df = df)
  /\ App1.default_year_range df = App.default_year_range df.
Proof.
  split; [|split; [|reflexivity]].
  - unfold App.default_year_range. split.
    + intros ->. reflexivity.
    + destruct (App.years df) as [|y ys] eqn:E; [|discriminate].
      intros _. destruct df as [|r df]; [reflexivity|].
      assert (H : In (Year r) (App.years (r :: df)))
        by (apply years_In; exists r; split; [now left|reflexivity]).
      rewrite E in H. destruct H.
  - intros [lo hi] H. unfold App.default_year_range in H.
    pose proof (years_sorted df) as Hs.
    destruct (App.years df) as [|y ys] eqn:E; [discriminate H|].
    injection H as <- <-. simpl fst. simpl snd.
    assert (Hl : last ys y = last (y :: ys) y).
    { destruct ys as [|z zs]; [reflexivity|]. reflexivity. }
    assert (Hin : In (last ys y) (y :: ys)).
    { rewrite Hl. apply last_In. discriminate. }
    assert (Hb : forall r, In r df -> y <= Year r <= last ys y).
    { intros r Hr.
      assert (Hy : In (Year r) (y :: ys)).
      { rewrite <- E. apply years_In. now exists r. }
      split.
      - inversion Hs as [|? ? _ Hall]; subst.
        destruct Hy as [<-|Hy]; [lia|].
        rewrite Forall_forall in Hall. specialize (Hall _ Hy). lia.
      - rewrite Hl. now apply sorted_last. }
    split; [now left|]. split; [exact Hin|]. split; [exact Hb|].
    assert (Hf : App.dff (y, last ys y) df = df).
    { apply filter_all. intros r Hr. apply mask_true. now apply Hb. }
    split; exact Hf.
Qed.

(** Filtering a filtered table is filtering once by the overlap of the
    two ranges. *)
Theorem dff_dff (a b c d : Z) (df : DataFrame) :
  App.dff (a, b) (App.dff (c, d) df) = App.dff (Z.max a c, Z.min b d) df
  /\ App1.dff (a, b) (App1.dff (c, d) df) = App1.dff (Z.max a c, Z.min b d) df.
Proof.
  assert (H : App.dff (a, b) (App.dff (c, d) df)
              = App.dff (Z.max a c, Z.min b d) df).
  { unfold App.dff. apply filter_filter_ext. intros r.
    apply eq_true_iff_eq. rewrite andb_true_iff, !mask_true. lia. }
  split; exact H.
Qed.

(* ================================================================== *)
(** * More about the KPI row *)

(** [idxmax] returns the label of the first entry that holds the
    maximum. *)
Lemma idxmax_from_split {K : Type} (s : list (K * Z)) :
  forall best, exists l1 v l2,
    best :: s = l1 ++ (idxmax_from best s, v) :: l2
    /\ Forall (fun x => snd x < v) l1
    /\ Forall (fun x => snd x <= v) l2.
Proof.
  induction s as [|x s IH]; intros best.
  - exists [], (snd best), []. destruct best. simpl. auto.
  - cbn [idxmax_from]. destruct (snd best <? snd x) eqn:E.
    + apply Z.ltb_lt in E.
      destruct (IH x) as (l1 & v & l2 & Hs & H1 & H2).
      set (k := idxmax_from x s) in *.
      exists (best :: l1), v, l2.
      split; [simpl; now rewrite Hs|]. split; [|exact H2].
      constructor; [|exact H1].
      assert (Hx : snd x <= v).
      { destruct l1 as [|y l1]; simpl in Hs.
        - injection Hs as Hx _. rewrite Hx. simpl. lia.
        - injection Hs as Hx _. inversion H1 as [|? ? Hy _]; subst y. lia. }
      lia.
    + apply Z.ltb_ge in E.
      destruct (IH best) as (l1 & v & l2 & Hs & H1 & H2).
      set (k := idxmax_from best s) in *.
      destruct l1 as [|y l1]; simpl in Hs.
      * injection Hs as Hb Hl.
        exists [], v, (x :: l2).
        split; [simpl; now rewrite Hb, Hl|]. split; [constructor|].
        constructor; [|exact H2]. rewrite Hb in E. simpl in E. exact E.
      * injection Hs as Hb Hl.
        exists (best :: x :: l1), v, l2.
        split; [simpl; now rewrite Hl|]. split; [|exact H2].
        inversion H1 as [|? ? Hy H1']; subst y.
        constructor; [assumption|]. constructor; [lia|assumption].
Qed.

Lemma StronglySorted_app_r {A : Type} (R : A -> A -> Prop) (l1 l2 : list A) :
  StronglySorted R (l1 ++ l2) -> StronglySorted R l2.
Proof.
  induction l1 as [|a l1 IH]; simpl; intros H; [exact H|].
  inversion H; subst. now apply IH.
Qed.

Lemma sum_by_country_nil (col : Row -> option Z) (dff : DataFrame) :
  sum_by_country col dff = [] -> forall r, In r dff -> Country r = None.
Proof.
  intros E r Hr. destruct (Country r) as [c|] eqn:Ec; [|reflexivity].
  exfalso. apply (sum_by_country_nonempty col dff r Hr); [|exact E].
  now rewrite Ec.
Qed.

(** The all-time leader is a country of the filtered table whose Medals,
    summed over its rows, are the largest; among the countries that
    share the largest sum it is the first by name.  The KPI fails, with
    [ValueError], exactly when no row of the filtered table has a
    country. *)
Theorem top_country_is_argmax (dff : DataFrame) :
  match App.top_country dff with
  | Ok c =>
      In c (keys_of Country dff)
      /\ forall c', In c' (keys_of Country dff) ->
           let total x := sum (map Medals (filter (of_country x) dff)) in
           total c' < total c
           \/ (total c' = total c /\ (c' = c \/ str_cmp c c' = Lt))
  | Raise e =>
      e = ValueError /\ forall r, In r dff -> Country r = None
  end
  /\ App1.k4 dff = App.top_country dff.
Proof.
  split; [|reflexivity].
  unfold App.top_country.
  pose proof (sum_by_country_sorted Medals dff) as Hs.
  pose proof (sum_by_country_In Medals dff) as Hin.
  destruct (sum_by_country Medals dff) as [|best s] eqn:E.
  - simpl. split; [reflexivity|]. now apply (sum_by_country_nil Medals).
  - simpl.
    destruct (idxmax_from_split s best) as (l1 & v & l2 & Hsplit & H1 & H2).
    set (c := idxmax_from best s) in *.
    rewrite Hsplit in Hs, Hin.
    assert (Hc : In (c, v) (l1 ++ (c, v) :: l2))
      by (apply in_or_app; right; now left).
    destruct (proj1 (Hin c v) Hc) as [Hk Hv].
    split; [exact Hk|].
    intros c' Hk'. cbv zeta. rewrite <- Hv.
    set (v' := sum (map Medals (filter (of_country c') dff))).
    assert (Hc' : In (c', v') (l1 ++ (c, v) :: l2))
      by (apply (proj2 (Hin c' v')); auto).
    apply in_app_or in Hc'. destruct Hc' as [Hc'|[Hc'|Hc']].
    + rewrite Forall_forall in H1. left. exact (H1 _ Hc').
    + injection Hc' as -> ->. right. auto.
    + rewrite Forall_forall in H2. specialize (H2 _ Hc'). simpl in H2.
      destruct (Z.eq_dec v' v) as [Hv'|Hv']; [|left; lia].
      right. split; [exact Hv'|]. right.
      apply StronglySorted_app_r in Hs. inversion Hs as [|? ? _ Hall]; subst.
      rewrite Forall_forall in Hall. exact (Hall _ Hc').
Qed.

Lemma sum_Some_add {A : Type} (f g : A -> Z) (l : list A) :
  sum (map (fun a => Some (f a + g a)) l)
  = sum (map (fun a => Some (f a)) l) + sum (map (fun a => Some (g a)) l).
Proof.
  induction l as [|a l IH]; simpl; [reflexivity|].
  unfold sum in *. simpl. lia.
Qed.

Section Partition.
Context {K : Type} (cmp : K -> K -> comparison).
Hypothesis cmp_eq : forall a b, cmp a b = Eq <-> a = b.
Context {R : Type} (key : R -> option K) (col : R -> option Z).

Let cell_of (r : R) : Z :=
  match col r with Some v => v | None => 0 end.

Lemma sum_indicator (k0 : K) (a : Z) (ks : list K) :
  NoDup ks ->
  sum (map (fun k => Some (if key_eqb cmp k0 k then a else 0)) ks)
  = if existsb (fun k => key_eqb cmp k k0) ks then a else 0.
Proof.
  induction 1 as [|k ks Hnot Hnd IH]; [reflexivity|].
  change (sum (map (fun k => Some (if key_eqb cmp k0 k then a else 0)) (k :: ks)))
    with ((if key_eqb cmp k0 k then a else 0)
          + sum (map (fun k => Some (if key_eqb cmp k0 k then a else 0)) ks)).
  rewrite IH. simpl.
  destruct (key_eqb cmp k0 k) eqn:E.
  - apply (key_eqb_eq cmp cmp_eq) in E. subst k0.
    rewrite (proj2 (key_eqb_eq cmp cmp_eq k k) eq_refl). simpl.
    destruct (existsb (fun k1 => key_eqb cmp k1 k) ks) eqn:E'; [|lia].
    apply (existsb_key cmp k ks cmp_eq) in E'. contradiction.
  - destruct (key_eqb cmp k k0) eqn:E2.
    + apply (key_eqb_eq cmp cmp_eq) in E2. subst.
      rewrite (proj2 (key_eqb_eq cmp cmp_eq k0 k0) eq_refl) in E.
      discriminate E.
    + simpl. lia.
Qed.

Lemma group_sum_cons (k : K) (r : R) (df : list R) :
  sum (map col (filter (has_key cmp key k) (r :: df)))
  = (match key r with
     | Some k0 => if key_eqb cmp k0 k then cell_of r else 0
     | None => 0
     end)
    + sum (map col (filter (has_key cmp key k) df)).
Proof.
  simpl. unfold has_key at 1, cell_of.
  destruct (key r) as [k0|]; [|lia].
  destruct (key_eqb cmp k0 k); [|lia].
  rewrite sum_cons. destruct (col r); lia.
Qed.

Lemma sum_Some_zero (ks : list K) : sum (map (fun _ : K => Some 0) ks) = 0.
Proof.
  induction ks as [|k ks IH]; [reflexivity|].
  change (0 + sum (map (fun _ : K => Some 0) ks) = 0). lia.
Qed.

(** The sums of the groups add up to the sum of the column over the rows
    that have a key. *)
Lemma groups_add_up (ks : list K) (df : list R) :
  NoDup ks -> (forall k, In k (keys_of key df) -> In k ks) ->
  sum (map (fun k => Some (sum (map col (filter (has_key cmp key k) df)))) ks)
  = sum (map col (filter (fun r => notna (key r)) df)).
Proof.
  intros Hnd. induction df as [|r df IH]; intros Hks.
  - rewrite (map_ext _ (fun _ : K => Some 0)) by reflexivity.
    apply sum_Some_zero.
  - rewrite (map_ext _ _ (fun k => f_equal Some (group_sum_cons k r df))).
    rewrite sum_Some_add.
    rewrite IH.
    + cbn [filter]. destruct (key r) as [k0|] eqn:Ek.
      * cbn [notna isna negb]. rewrite sum_cons.
        rewrite (sum_indicator k0 (cell_of r) ks Hnd).
        assert (Hin : In k0 ks).
        { apply Hks. unfold keys_of. simpl. rewrite Ek. now left. }
        apply (existsb_key cmp k0 ks cmp_eq) in Hin. rewrite Hin.
        unfold cell_of. destruct (col r); lia.
      * cbn [notna isna negb]. rewrite sum_Some_zero. lia.
    + intros k Hk. apply Hks. unfold keys_of in *. simpl.
      apply in_or_app. now right.
Qed.

End Partition.

(** The sums by country add up: over all the countries of the filtered
    table they give the sum of the column over the rows that have a
    country, which is the whole column, and for Medals the KPI "Total
    Medals", when no row lacks its country. *)
Theorem sums_by_country_add_up (col : Row -> option Z) (dff : DataFrame) :
  sum (map (fun e => Some (snd e)) (sum_by_country col dff))
  = sum (map col (filter (fun r => notna (Country r)) dff))
  /\ (no_missing_country dff ->
      sum (map (fun e => Some (snd e)) (sum_by_country col dff))
      = sum (map col dff)
      /\ sum (map (fun e => Some (snd e)) (sum_by_country Medals dff))
         = App.total_medals dff
      /\ App1.k3 dff = App.total_medals dff).
Proof.
  assert (H : forall c : Row -> option Z,
             sum (map (fun e => Some (snd e)) (sum_by_country c dff))
             = sum (map c (filter (fun r => notna (Country r)) dff))).
  { intros c. unfold sum_by_country, groupby_sum, groupby.
    rewrite !map_map. simpl.
    apply (groups_add_up str_cmp str_cmp_eq).
    - apply unique_sorted_NoDup; str_order.
    - intros k Hk. now apply (proj2 (unique_sorted_In str_cmp str_cmp_eq _ _)). }
  split; [apply H|].
  intros Hc.
  assert (Hf : filter (fun r => notna (Country r)) dff = dff).
  { apply filter_all. intros r Hr. unfold no_missing_country in Hc.
    rewrite Forall_forall in Hc. now apply Hc. }
  rewrite !H, Hf. repeat split.
Qed.

(* ================================================================== *)
(** * More about the charts *)

Lemma NoDup_firstn {A : Type} (n : nat) (l : list A) :
  NoDup l -> NoDup (firstn n l).
Proof.
  intros H. rewrite <- (firstn_skipn n l) in H.
  exact (NoDup_app_remove_r _ _ H).
Qed.

Lemma firstn_map {A B : Type} (f : A -> B) (n : nat) (l : list A) :
  firstn n (map f l) = map f (firstn n l).
Proof.
  revert l. induction n as [|n IH]; intros [|a l]; simpl; try reflexivity.
  now rewrite IH.
Qed.

Lemma sum_by_country_NoDup (col : Row -> option Z) (dff : DataFrame) :
  NoDup (map fst (sum_by_country col dff)).
Proof.
  rewrite sum_by_country_keys. apply unique_sorted_NoDup; str_order.
Qed.

(** The countries [nlargest] selects are distinct countries of the
    table. *)
Lemma nlargest_countries (col : Row -> option Z) (n : Z) (dff : DataFrame) :
  NoDup (map fst (nlargest snd n (sum_by_country col dff)))
  /\ forall c, In c (map fst (nlargest snd n (sum_by_country col dff))) ->
               In c (keys_of Country dff).
Proof.
  split.
  - unfold nlargest. destruct (n <=? 0); [constructor|].
    rewrite <- firstn_map. apply NoDup_firstn.
    apply (Permutation_NoDup
             (Permutation_map fst
                (Permutation_sym (sort_values_perm snd false _)))).
    apply sum_by_country_NoDup.
  - intros c H. apply in_map_iff in H.
    destruct H as ([c' v] & E & H). simpl in E. subst c'.
    apply nlargest_incl in H. now apply sum_by_country_In in H.
Qed.

(** The rows of the countries of [top], grouped: one group per country
    of [top] that the table has. *)
Lemma restricted_countries (top : list string) (dff : DataFrame) (c : string) :
  In c (keys_of Country (filter (country_isin top) dff)) <->
  In c top /\ In c (keys_of Country dff).
Proof.
  rewrite !keys_of_In. split.
  - intros (r & Hr & Hc). apply filter_In in Hr. destruct Hr as [Hr Ht].
    unfold country_isin in Ht. rewrite Hc in Ht. apply isin_In in Ht.
    split; [exact Ht|]. now exists r.
  - intros [Ht (r & Hr & Hc)]. exists r. split; [|exact Hc].
    apply filter_In. split; [exact Hr|].
    unfold country_isin. rewrite Hc. now apply isin_In.
Qed.

Lemma restricted_group (top : list string) (dff : DataFrame) (c : string) :
  In c top ->
  filter (of_country c) (filter (country_isin top) dff)
  = filter (of_country c) dff.
Proof.
  intros Ht. apply filter_filter_ext. intros r.
  destruct (of_country c r) eqn:E; [|apply andb_false_r].
  apply of_country_true in E. unfold country_isin. rewrite E.
  rewrite (proj2 (isin_In top c) Ht). reflexivity.
Qed.

Lemma restricted_keys_perm (top : list string) (dff : DataFrame) :
  NoDup top -> (forall c, In c top -> In c (keys_of Country dff)) ->
  Permutation
    (unique_sorted str_cmp (keys_of Country (filter (country_isin top) dff)))
    top.
Proof.
  intros Hnd Hsub. apply NoDup_Permutation.
  - apply unique_sorted_NoDup; str_order.
  - exact Hnd.
  - intros c. rewrite (unique_sorted_In str_cmp str_cmp_eq).
    rewrite restricted_countries. split; [tauto|]. auto.
Qed.

Lemma StronglySorted_weaken {A : Type} (R T : A -> A -> Prop) (l : list A) :
  (forall a b, R a b -> T a b) -> StronglySorted R l -> StronglySorted T l.
Proof.
  intros H. induction 1 as [|a l Hl IH Hall]; constructor; [exact IH|].
  eapply Forall_impl; [|exact Hall]. auto.
Qed.

Lemma sort_values_nonincreasing {A : Type} (by_ : A -> Z) (l : list A) :
  StronglySorted (fun a b => by_ b <= by_ a) (sort_values by_ false l).
Proof.
  apply (StronglySorted_weaken
           (fun a b => by_ b < by_ a \/ (by_ b = by_ a /\ True))).
  - intros a b [H|[H _]]; lia.
  - apply sort_values_descending. apply StronglySorted_True.
Qed.

Lemma StronglySorted_firstn {A : Type} (R : A -> A -> Prop) (n : nat)
    (l : list A) :
  StronglySorted R l -> StronglySorted R (firstn n l).
Proof.
  revert l. induction n as [|n IH]; intros l H; [constructor|].
  destruct H as [|a l Hl Hall]; [constructor|].
  simpl. constructor; [now apply IH|].
  rewrite Forall_forall in *. intros b Hb. apply Hall.
  rewrite <- (firstn_skipn n l). apply in_or_app. now left.
Qed.

Lemma nlargest_nonincreasing {A : Type} (by_ : A -> Z) (n : Z) (l : list A) :
  StronglySorted (fun a b => by_ b <= by_ a) (nlargest by_ n l).
Proof.
  unfold nlargest. destruct (n <=? 0); [constructor|].
  apply StronglySorted_firstn, sort_values_nonincreasing.
Qed.

(** Chart 2 shows the countries that the ranking by Medals selects, each
    once and with the sums of its Golds, Silvers and Bronzes over the filtered
    table, by non-increasing Golds; they are the countries of chart 1
    when chart 1 ranks by Medals. *)
Theorem comp_df_countries (n : Z) (dff : DataFrame) :
  Permutation (map fst (App.comp_df n dff)) (App.top_names n dff)
  /\ NoDup (map fst (App.comp_df n dff))
  /\ Permutation (map fst (App.comp_df n dff))
       (map fst (App.top_df MMedals n dff))
  /\ StronglySorted
       (fun a b => fst (fst (snd b)) <= fst (fst (snd a))) (App.comp_df n dff)
  /\ (forall c g s b,
        In (c, (g, s, b)) (App.comp_df n dff) ->
        g = sum (map Golds (filter (of_country c) dff))
        /\ s = sum (map Silvers (filter (of_country c) dff))
        /\ b = sum (map Bronzes (filter (of_country c) dff)))
  /\ App1.comp_df n dff = App.comp_df n dff.
Proof.
  destruct (nlargest_countries Medals n dff) as [Hnd Hsub].
  fold (App.top_names n dff) in Hnd, Hsub.
  set (top := App.top_names n dff) in *.
  set (rows := filter (country_isin top) dff).
  set (L := map (fun g => (fst g, sum3 (snd g))) (by_country rows)).
  assert (HL : map fst L = unique_sorted str_cmp (keys_of Country rows)).
  { unfold L, by_country, groupby. rewrite !map_map. simpl. apply map_id. }
  assert (Hp : Permutation (App.comp_df n dff) L) by apply sort_values_perm.
  assert (H1 : Permutation (map fst (App.comp_df n dff)) top).
  { rewrite (Permutation_map fst Hp), HL.
    now apply restricted_keys_perm. }
  split; [exact H1|].
  split; [exact (Permutation_NoDup (Permutation_sym H1) Hnd)|].
  split; [|split; [|split; [|reflexivity]]].
  - rewrite H1. unfold top, App.top_names, App.top_df.
    apply Permutation_map. apply Permutation_sym. apply sort_values_perm.
  - apply sort_values_nonincreasing.
  - intros c g s b Hin.
    apply (Permutation_in _ Hp) in Hin.
    unfold L, by_country, groupby in Hin. rewrite map_map in Hin.
    apply in_map_iff in Hin. destruct Hin as (k & E & Hk). simpl in E.
    injection E as -> Hg Hs Hb.
    apply (proj1 (unique_sorted_In str_cmp str_cmp_eq _ _)) in Hk.
    apply restricted_countries in Hk. destruct Hk as [Ht _].
    change (has_key str_cmp Country c) with (of_country c) in Hg, Hs, Hb.
    unfold rows in Hg, Hs, Hb.
    rewrite (restricted_group top dff c Ht) in Hg, Hs, Hb. auto.
Qed.

(** The donut has the ten largest sums of the chosen column, the largest
    first: as many slices as there are countries, up to ten; they are
    the entries chart 1 shows for a ranking of size ten. *)
Theorem pie_df_slices (mt : MedalType) (dff : DataFrame) :
  List.length (App1.pie_df mt dff) = Nat.min 10 (App1.k2 dff)
  /\ StronglySorted (fun a b => snd b <= snd a) (App1.pie_df mt dff)
  /\ Permutation (App1.bar_df mt 10 dff) (App1.pie_df mt dff)
  /\ incl (App1.pie_df mt dff) (sum_by_country (column mt) dff).
Proof.
  unfold App1.pie_df, App1.bar_df. split; [|split; [|split]].
  - rewrite nlargest_length by lia. now rewrite sum_by_country_length.
  - apply nlargest_nonincreasing.
  - apply sort_values_perm.
  - intros e. apply nlargest_incl.
Qed.

(** The bubble chart has one bubble per country of the filtered table,
    with the four sums of the country; the dashboard of part_000 leaves
    out the countries whose Bronzes sum is not positive, and nothing
    else. *)
Theorem scatter_bubbles (dff : DataFrame) :
  (forall c g s b m,
      In (c, (g, s, b, m)) (App.scatter_df dff) <->
      In c (keys_of Country dff)
      /\ g = sum (map Golds (filter (of_country c) dff))
      /\ s = sum (map Silvers (filter (of_country c) dff))
      /\ b = sum (map Bronzes (filter (of_country c) dff))
      /\ m = sum (map Medals (filter (of_country c) dff)))
  /\ List.length (App.scatter_df dff) = App.total_nations dff
  /\ NoDup (map fst (App.scatter_df dff))
  /\ (forall c g s b m,
        In (c, (g, s, b, m)) (App1.s_df dff) <->
        In (c, (g, s, b, m)) (App.scatter_df dff) /\ 0 < b)
  /\ (List.length (App1.s_df dff) <= App1.k2 dff)%nat.
Proof.
  assert (Hk : map fst (App.scatter_df dff)
               = unique_sorted str_cmp (keys_of Country dff)).
  { unfold App.scatter_df, by_country, groupby. rewrite !map_map. simpl.
    apply map_id. }
  assert (Hlen : List.length (App.scatter_df dff) = App.total_nations dff).
  { rewrite <- (length_map fst), Hk. unfold App.total_nations, nunique.
    rewrite dropna_Country. apply unique_sorted_length; str_order. }
  split; [|split; [exact Hlen|split; [|split]]].
  - intros c g s b m.
    unfold App.scatter_df, by_country, groupby. rewrite map_map. simpl.
    rewrite in_map_iff. split.
    + intros (k & E & Hin). injection E as -> Hg Hs Hb Hm.
      apply (proj1 (unique_sorted_In str_cmp str_cmp_eq _ _)) in Hin.
      repeat split; auto.
    + intros (Hin & -> & -> & -> & ->). exists c. split; [reflexivity|].
      now apply (proj2 (unique_sorted_In str_cmp str_cmp_eq _ _)).
  - rewrite Hk. apply unique_sorted_NoDup; str_order.
  - intros c g s b m. unfold App1.s_df.
    change (map (fun g0 => (fst g0, sum4 (snd g0))) (by_country dff))
      with (App.scatter_df dff).
    rewrite filter_In. simpl. now rewrite Z.ltb_lt.
  - unfold App1.s_df.
    change (map (fun g0 => (fst g0, sum4 (snd g0))) (by_country dff))
      with (App.scatter_df dff).
    change (App1.k2 dff) with (App.total_nations dff). rewrite <- Hlen.
    apply filter_length_le.
Qed.

Section PairOrder.
Context {A B : Type} (ca : A -> A -> comparison) (cb : B -> B -> comparison).
Hypothesis ca_eq : forall a a', ca a a' = Eq <-> a = a'.
Hypothesis ca_gt : forall a a', ca a a' = Gt -> ca a' a = Lt.
Hypothesis ca_trans : forall a b c, ca a b = Lt -> ca b c = Lt -> ca a c = Lt.
Hypothesis cb_gt : forall b b', cb b b' = Gt -> cb b' b = Lt.
Hypothesis cb_trans : forall a b c, cb a b = Lt -> cb b c = Lt -> cb a c = Lt.

Lemma cmp_pair_gt (x y : A * B) :
  cmp_pair ca cb x y = Gt -> cmp_pair ca cb y x = Lt.
Proof.
  unfold cmp_pair. destruct (ca (fst x) (fst y)) eqn:E; intros H.
  - apply ca_eq in E. rewrite E.
    rewrite (proj2 (ca_eq (fst y) (fst y)) eq_refl). now apply cb_gt.
  - discriminate H.
  - now rewrite (ca_gt _ _ E).
Qed.

Lemma cmp_pair_trans (x y z : A * B) :
  cmp_pair ca cb x y = Lt -> cmp_pair ca cb y z = Lt ->
  cmp_pair ca cb x z = Lt.
Proof.
  unfold cmp_pair.
  destruct (ca (fst x) (fst y)) eqn:E1; intros H1; try discriminate H1;
    destruct (ca (fst y) (fst z)) eqn:E2; intros H2; try discriminate H2.
  - apply ca_eq in E1, E2. rewrite E1, E2.
    rewrite (proj2 (ca_eq (fst z) (fst z)) eq_refl).
    exact (cb_trans _ _ _ H1 H2).
  - apply ca_eq in E1. rewrite E1, E2. reflexivity.
  - apply ca_eq in E2. rewrite <- E2, E1. reflexivity.
  - now rewrite (ca_trans _ _ _ E1 E2).
Qed.

End PairOrder.

Lemma cmp3_eq (x y : Z * string) : cmp3 x y = Eq <-> x = y.
Proof. apply cmp_pair_eq; [exact Z.compare_eq_iff|exact str_cmp_eq]. Qed.

Lemma cmp3_gt (x y : Z * string) : cmp3 x y = Gt -> cmp3 y x = Lt.
Proof.
  apply cmp_pair_gt;
    [exact Z.compare_eq_iff|exact Z_compare_gt|exact str_cmp_gt].
Qed.

Lemma cmp3_trans (x y z : Z * string) :
  cmp3 x y = Lt -> cmp3 y z = Lt -> cmp3 x z = Lt.
Proof.
  apply cmp_pair_trans;
    [exact Z.compare_eq_iff|exact Z_compare_trans|exact str_cmp_trans].
Qed.

Lemma Year_Country_key (r : Row) (y : Z) (c : string) :
  has_key cmp3 Year_Country (y, c) r = true <->
  Year r = y /\ Country r = Some c.
Proof.
  rewrite (has_key_true cmp3 cmp3_eq). unfold Year_Country.
  destruct (Country r) as [c'|]; simpl; split.
  - intros E. injection E as -> ->. auto.
  - intros [<- E]. now injection E as ->.
  - discriminate.
  - intros [_ E]. discriminate E.
Qed.

(** The line chart has one point per year and selected country that the
    filtered table has a row for, with the sum of the chosen column over
    the rows of that year and country; a country that is not selected
    has no point; the points come by year, then by country name. *)
Theorem trend_df_points (selected_countries : list string) (mt : MedalType)
    (dff : DataFrame) :
  (forall y c v,
      In ((y, c), v) (App.trend_df selected_countries mt dff) <->
      In c selected_countries
      /\ (exists r, In r dff /\ Year r = y /\ Country r = Some c)
      /\ v = sum (map (column mt) (filter (in_year y c) dff)))
  /\ StronglySorted
       (fun a b => fst (fst a) < fst (fst b)
                   \/ (fst (fst a) = fst (fst b)
                       /\ str_cmp (snd (fst a)) (snd (fst b)) = Lt))
       (App.trend_df selected_countries mt dff)
  /\ App1.trend_df selected_countries mt dff
     = App.trend_df selected_countries mt dff.
Proof.
  split; [|split; [|reflexivity]].
  - intros y c v. unfold App.trend_df.
    change (cmp_pair Z.compare str_cmp) with cmp3.
    rewrite (groupby_sum_In cmp3 cmp3_eq), keys_of_In.
    assert (Hg : In c selected_countries ->
                 filter (has_key cmp3 Year_Country (y, c))
                   (filter (country_isin selected_countries) dff)
                 = filter (in_year y c) dff).
    { intros Hs. apply filter_filter_ext. intros r.
      apply eq_true_iff_eq. unfold in_year.
      rewrite !andb_true_iff, Year_Country_key, of_country_true, Z.eqb_eq.
      unfold country_isin. split.
      - tauto.
      - intros [Hy Hc]. rewrite Hc.
        split; [now apply isin_In|auto]. }
    split.
    + intros [(r & Hr & Hk) Hv].
      apply filter_In in Hr. destruct Hr as [Hr Ht].
      apply (has_key_true cmp3 cmp3_eq) in Hk.
      apply Year_Country_key in Hk. destruct Hk as [Hy Hc].
      assert (Hs : In c selected_countries).
      { unfold country_isin in Ht. rewrite Hc in Ht. now apply isin_In. }
      split; [exact Hs|]. split; [now exists r|].
      now rewrite <- (Hg Hs).
    + intros (Hs & (r & Hr & Hy & Hc) & Hv). split.
      * exists r. split.
        -- apply filter_In. split; [exact Hr|].
           unfold country_isin. rewrite Hc. now apply isin_In.
        -- apply (has_key_true cmp3 cmp3_eq). now apply Year_Country_key.
      * now rewrite (Hg Hs).
  - unfold App.trend_df. change (cmp_pair Z.compare str_cmp) with cmp3.
    apply (StronglySorted_weaken (fun a b => cmp3 (fst a) (fst b) = Lt)).
    + intros [[y c] v] [[y' c'] v']. unfold cmp3, cmp_pair. simpl.
      destruct (Z.compare_spec y y') as [Hy|Hy|Hy]; intros Hc;
        try discriminate Hc.
      * right. auto.
      * left. assumption.
    + apply (StronglySorted_map_inv fst (fun a b => cmp3 a b = Lt)).
      rewrite (groupby_sum_keys cmp3).
      apply (unique_sorted_sorted cmp3 cmp3_eq cmp3_gt cmp3_trans).
Qed.

Lemma map_fst_fst_inv {A B C : Type} (s : list ((A * B) * C)) (a : A) :
  In a (map (fun e => fst (fst e)) s) -> exists b, In (a, b) (map fst s).
Proof.
  intros H. apply in_map_iff in H. destruct H as ([[a' b] v] & E & H).
  simpl in E. subst a'. exists b. apply in_map_iff. now exists ((a, b), v).
Qed.

(** The rows of the frame that [heat_df] unstacks are the countries of
    [top] that the table has. *)
Lemma decade_sums_index (top : list string) (dff : DataFrame) (C : string) :
  In C (map (fun e => fst (fst e)) (decade_sums top dff)) <->
  In C top /\ In C (keys_of Country dff).
Proof.
  split.
  - intros H. destruct (map_fst_fst_inv _ _ H) as (d & Hd).
    apply decade_sums_key in Hd. destruct Hd as (r & Hr & Ht & Hc & _).
    split.
    + unfold country_isin in Ht. rewrite Hc in Ht. now apply isin_In.
    + apply keys_of_In. now exists r.
  - intros [Ht Hk]. apply (proj1 (keys_of_In _ _ _)) in Hk.
    destruct Hk as (r & Hr & Hc).
    apply (map_fst_fst _ C (Decade r)).
    apply decade_sums_key. exists r. repeat split; auto.
    unfold country_isin. rewrite Hc. now apply isin_In.
Qed.

Lemma top20_NoDup (dff : DataFrame) : NoDup (App.top20 dff).
Proof. exact (proj1 (nlargest_countries Medals 20 dff)). Qed.

(** The 20 countries of the heatmap are the countries with the largest
    summed Medals: there are 20 of them, or all the countries when the
    table has fewer, and a country left out has a smaller sum than each
    of them, or the same sum and a later name. *)
Lemma top20_largest (dff : DataFrame) :
  List.length (App.top20 dff) = Nat.min 20 (App.total_nations dff)
  /\ forall c c',
       In c (App.top20 dff) -> In c' (keys_of Country dff) ->
       ~ In c' (App.top20 dff) ->
       let total x := sum (map Medals (filter (of_country x) dff)) in
       total c' < total c \/ (total c' = total c /\ str_cmp c c' = Lt).
Proof.
  split.
  - unfold App.top20, App.total_nations.
    rewrite length_map, nlargest_length by lia.
    now rewrite sum_by_country_length.
  - intros c c' Hc Hc' Hn total. unfold App.top20 in Hc, Hn.
    apply in_map_iff in Hc. destruct Hc as ([c0 v] & E & Hin).
    simpl in E. subst c0.
    pose proof (nlargest_incl snd 20 _ _ Hin) as Hv.
    apply sum_by_country_In in Hv. destruct Hv as [_ Hv].
    assert (Hb : In (c', total c') (sum_by_country Medals dff))
      by (apply sum_by_country_In; split; [exact Hc'|reflexivity]).
    assert (Hnb : ~ In (c', total c')
                    (nlargest snd 20 (sum_by_country Medals dff))).
    { intros H. apply Hn. apply in_map_iff. exists (c', total c'). auto. }
    destruct (nlargest_first snd
                (fun a b : string * Z => str_cmp (fst a) (fst b) = Lt)
                20 (sum_by_country Medals dff) (c, v) (c', total c')
                (sum_by_country_sorted Medals dff) Hin Hb Hnb) as [H|H];
      simpl in H; subst v; [left; exact H|right; exact H].
Qed.

(** The rows of the heatmap are the 20 countries with the largest summed
    Medals, each once: there are 20 rows, or one per country when the
    table has fewer countries; a country without a row has a smaller sum
    than every country with one, or the same sum and a later name.  The
    rows come in the order of their names in the dashboard of app.py, by
    non-increasing summed Medals in that of part_000, whose reordering
    changes neither the columns nor any cell. *)
Theorem heat_df_rows (dff : DataFrame) :
  List.length (index (App.heat_df dff)) = Nat.min 20 (App.total_nations dff)
  /\ List.length (index (App1.heat_df dff)) = Nat.min 20 (App1.k2 dff)
  /\ NoDup (index (App.heat_df dff))
  /\ Permutation (index (App1.heat_df dff)) (index (App.heat_df dff))
  /\ (forall c, In c (index (App.heat_df dff)) -> In c (keys_of Country dff))
  /\ (forall c c',
        In c (index (App.heat_df dff)) -> In c' (keys_of Country dff) ->
        ~ In c' (index (App.heat_df dff)) ->
        let total x := sum (map Medals (filter (of_country x) dff)) in
        total c' < total c \/ (total c' = total c /\ str_cmp c c' = Lt))
  /\ StronglySorted (fun a b => str_cmp a b = Lt) (index (App.heat_df dff))
  /\ Permutation (index (App.heat_df dff)) (App.top20 dff)
  /\ Permutation (index (App1.heat_df dff)) (App.top20 dff)
  /\ columns (App1.heat_df dff) = columns (App.heat_df dff)
  /\ (forall C d, In C (App.top20 dff) ->
        loc (App1.heat_df dff) C d = loc (App.heat_df dff) C d)
  /\ exists s,
       index (App1.heat_df dff) = map fst s
       /\ StronglySorted (fun a b => snd b <= snd a) s
       /\ forall c v, In (c, v) s ->
            v = sum (map Medals (filter (of_country c) dff)).
Proof.
  pose proof (top20_NoDup dff) as Hnd.
  assert (Hidx : forall C, In C (index (App.heat_df dff)) <->
                           In C (App.top20 dff)).
  { intros C. unfold App.heat_df, unstack. cbn [index].
    change (groupby_sum (cmp_pair str_cmp str_cmp) Country_Decade Medals
              (filter (country_isin (App.top20 dff)) dff))
      with (decade_sums (App.top20 dff) dff).
    rewrite (unique_sorted_In str_cmp str_cmp_eq), decade_sums_index.
    split; [tauto|]. intros H. split; [exact H|now apply top20_keys]. }
  set (rows := filter (country_isin (App.top20 dff)) dff).
  set (s := sort_values snd false (sum_by_country Medals rows)).
  assert (Hs : Permutation (map fst s) (App.top20 dff)).
  { unfold s. rewrite (Permutation_map fst (sort_values_perm snd false _)).
    rewrite sum_by_country_keys.
    apply restricted_keys_perm; [exact Hnd|apply top20_keys]. }
  assert (Hnd0 : NoDup (index (App.heat_df dff))).
  { unfold App.heat_df, unstack. cbn [index].
    apply unique_sorted_NoDup; str_order. }
  assert (Hp0 : Permutation (index (App.heat_df dff)) (App.top20 dff))
    by (apply NoDup_Permutation; [exact Hnd0|exact Hnd|exact Hidx]).
  destruct (top20_largest dff) as [Hlen Hcut].
  split; [now rewrite (Permutation_length Hp0)|].
  split; [change (index (App1.heat_df dff)) with (map fst s);
          now rewrite (Permutation_length Hs)|].
  split; [exact Hnd0|].
  split; [change (index (App1.heat_df dff)) with (map fst s);
          now rewrite Hs, Hp0|].
  split; [intros c Hc; apply top20_keys; now apply Hidx|].
  split.
  { intros c c' Hc Hc' Hn. apply Hcut.
    - now apply Hidx.
    - exact Hc'.
    - intros H. apply Hn. now apply Hidx. }
  split; [|split; [|split; [|split; [|split]]]].
  - unfold App.heat_df, unstack. cbn [index].
    apply unique_sorted_sorted; str_order.
  - exact Hp0.
  - exact Hs.
  - reflexivity.
  - intros C d HC. unfold App1.heat_df.
    apply reindex_loc.
    + now apply row_order_In.
    + now apply Hidx.
  - exists s. split; [reflexivity|]. split.
    + apply sort_values_nonincreasing.
    + intros c v Hin.
      apply (Permutation_in _ (sort_values_perm snd false _)) in Hin.
      apply sum_by_country_In in Hin. destruct Hin as [Hk ->].
      apply restricted_countries in Hk. destruct Hk as [Ht _].
      unfold rows. now rewrite restricted_group.
Qed.

(** The cells of the row of a top-20 country add up to the Medals of the
    country over the filtered table, in both dashboards. *)
Theorem heat_df_row_total (dff : DataFrame) (C : string) :
  In C (App.top20 dff) ->
  exists cells,
    frame_row (App.heat_df dff) C = Some cells
    /\ frame_row (App1.heat_df dff) C = Some cells
    /\ List.length cells = List.length (columns (App.heat_df dff))
    /\ sum cells = sum (map Medals (filter (of_country C) dff)).
Proof.
  intros HC.
  set (top := App.top20 dff).
  set (rows := filter (country_isin top) dff).
  set (sr := decade_sums top dff).
  set (cols := unique_sorted str_cmp (map (fun e => snd (fst e)) sr)).
  set (idx := unique_sorted str_cmp (map (fun e => fst (fst e)) sr)).
  set (cell := fun c d => match lookup cmp2 (c, d) sr with
                          | Some v => Some v
                          | None => Some 0
                          end).
  assert (Hheat : App.heat_df dff
                  = {| index := idx; columns := cols;
                       data := map (fun c => map (cell c) cols) idx |})
    by reflexivity.
  assert (Hi : In C idx).
  { apply (proj2 (unique_sorted_In str_cmp str_cmp_eq _ _)).
    apply decade_sums_index. split; [exact HC|now apply top20_keys]. }
  destruct (get_loc_nth str_cmp str_cmp_eq
              (fun c => map (cell c) cols) [] C idx Hi) as (i & Hloc & Hn & Hne).
  exists (map (cell C) cols).
  split; [|split; [|split]].
  - unfold frame_row. rewrite Hheat. cbn [index data]. now rewrite Hloc.
  - unfold frame_row, App1.heat_df, reindex. cbn [index data].
    destruct (get_loc_nth str_cmp str_cmp_eq
                (fun c => match get_loc str_cmp c
                                  (index (unstack 0
                                     (groupby_sum (cmp_pair str_cmp str_cmp)
                                        Country_Decade Medals
                                        (filter (country_isin
                                                   (App1.top20_idx dff)) dff))))
                          with
                          | Some i => nth i (data (unstack 0
                                     (groupby_sum (cmp_pair str_cmp str_cmp)
                                        Country_Decade Medals
                                        (filter (country_isin
                                                   (App1.top20_idx dff)) dff)))) []
                          | None => map (fun _ => None)
                                      (columns (unstack 0
                                     (groupby_sum (cmp_pair str_cmp str_cmp)
                                        Country_Decade Medals
                                        (filter (country_isin
                                                   (App1.top20_idx dff)) dff))))
                          end) [] C (App1.row_order dff)
                (row_order_In dff C HC)) as (i' & Hloc' & _ & Hne').
    rewrite Hloc', Hne'.
    change (unstack 0
              (groupby_sum (cmp_pair str_cmp str_cmp) Country_Decade Medals
                 (filter (country_isin (App1.top20_idx dff)) dff)))
      with (App.heat_df dff).
    rewrite Hheat. cbn [index data]. now rewrite Hloc, Hn.
  - rewrite Hheat. cbn [columns]. apply length_map.
  - rewrite (map_ext (fun d => cell C d)
               (fun d => Some (sum (map Medals
                          (filter (has_key cmp2 Country_Decade (C, d)) rows)))))
      by (intros d; apply decade_sums_lookup).
    set (keyC := fun r : Row => if of_country C r then Some (Decade r) else None).
    rewrite (map_ext
               (fun d => Some (sum (map Medals
                          (filter (has_key cmp2 Country_Decade (C, d)) rows))))
               (fun d => Some (sum (map Medals
                          (filter (has_key str_cmp keyC d) rows))))).
    + rewrite (groups_add_up str_cmp str_cmp_eq keyC Medals cols rows).
      * rewrite <- (restricted_group top dff C HC). fold rows.
        f_equal. f_equal. apply filter_ext. intros r. unfold keyC.
        now destruct (of_country C r).
      * apply unique_sorted_NoDup; str_order.
      * intros d Hd. apply (proj1 (keys_of_In _ _ _)) in Hd.
        destruct Hd as (r & Hr & Hk). unfold keyC in Hk.
        destruct (of_country C r) eqn:Ec; [|discriminate Hk].
        injection Hk as <-. apply of_country_true in Ec.
        apply (proj2 (unique_sorted_In str_cmp str_cmp_eq _ _)).
        apply (map_fst_fst sr C (Decade r)).
        apply decade_sums_key. unfold rows in Hr. apply filter_In in Hr.
        exists r. tauto.
    + intros d. do 3 f_equal. apply filter_ext. intros r.
      apply eq_true_iff_eq. rewrite Country_Decade_key.
      rewrite (has_key_true str_cmp str_cmp_eq). unfold keyC.
      destruct (of_country C r) eqn:Ec.
      * apply of_country_true in Ec. split.
        -- intros [_ <-]. reflexivity.
        -- intros E. injection E as <-. auto.
      * split; [|discriminate]. intros [Hc _].
        apply of_country_true in Hc. congruence.
Qed.

Lemma heat_df_row_total_witness :
  exists cells,
    frame_row (App.heat_df example_df) "USA" = Some cells
    /\ frame_row (App1.heat_df example_df) "USA" = Some cells
    /\ List.length cells = List.length (columns (App.heat_df example_df))
    /\ sum cells = sum (map Medals (filter (of_country "USA") example_df)).
Proof.
  apply (heat_df_row_total example_df "USA").
  vm_compute. left. reflexivity.
Defined.

Lemma NoDup_map_filter {K R : Type} (keep : R -> bool) (key : R -> K)
  (rows : list R) (Hnd : NoDup (map key rows)) :
  NoDup (map key (filter keep rows)).
Proof.
  induction rows as [|r rows IH]; simpl in *; [constructor|].
  inversion Hnd as [|? ? Hnot Hrest]; subst.
  destruct (keep r); simpl; [|now apply IH].
  constructor; [|now apply IH].
  intros Hin. apply Hnot. apply in_map_iff in Hin.
  destruct Hin as (x & E & Hx). apply filter_In in Hx.
  apply in_map_iff. exists x. tauto.
Qed.

Lemma conv_rows_NoDup (dff : DataFrame) :
  NoDup (map App1.conv_Country (App1.conv_rows dff)).
Proof.
  unfold App1.conv_rows. rewrite map_map. simpl.
  unfold App1.conv_kept. apply NoDup_map_filter.
  unfold App1.conv_sums, by_country, groupby. rewrite !map_map. simpl.
  rewrite map_id. apply unique_sorted_NoDup; str_order.
Qed.

(** The bars of the conversion chart come by non-decreasing percentage
    (no bar is followed by a smaller one), one bar per country. *)
Theorem conv_df_order (top_n : Z) (dff : DataFrame) :
  StronglySorted
    (fun a b => PrimFloat.ltb (App1.Gold_pct b) (App1.Gold_pct a) = false)
    (App1.conv_df top_n dff)
  /\ NoDup (map App1.conv_Country (App1.conv_df top_n dff)).
Proof.
  split; [apply F64Facts.f64_sort_values_ascending|].
  apply (Permutation_NoDup
           (Permutation_map App1.conv_Country
              (Permutation_sym (conv_df_perm top_n dff)))).
  unfold F64.nlargest. destruct (top_n <=? 0); [constructor|].
  rewrite <- firstn_map. apply NoDup_firstn.
  apply (Permutation_NoDup
           (Permutation_map App1.conv_Country
              (Permutation_sym
                 (F64Facts.f64_sort_values_perm App1.Gold_pct false _)))).
  apply conv_rows_NoDup.
Qed.

Lemma rank_leb_total (a b : option Z) :
  rank_leb a b = false -> rank_leb b a = true.
Proof.
  destruct a as [x|], b as [y|]; simpl; try congruence.
  rewrite Z.leb_gt, Z.leb_le. lia.
Qed.

Lemma rank_leb_trans (a b c : option Z) :
  rank_leb a b = true -> rank_leb b c = true -> rank_leb a c = true.
Proof.
  destruct a as [x|], b as [y|], c as [z|]; simpl; try congruence.
  rewrite !Z.leb_le. lia.
Qed.

Lemma year_rank_leb_true (a b : Row) :
  year_rank_leb a b = true <->
  Year a < Year b \/ (Year a = Year b /\ rank_leb (Rank a) (Rank b) = true).
Proof.
  unfold year_rank_leb.
  rewrite orb_true_iff, andb_true_iff, Z.ltb_lt, Z.eqb_eq. tauto.
Qed.

(** The table of the expander has the rows of the filtered table, none
    lost and none added, by year and, within a year, by rank, the rows
    without a rank last. *)
Theorem raw_table_sorted (dff : DataFrame) :
  Permutation (App.raw_table dff) dff
  /\ StronglySorted
       (fun a b => Year a < Year b
                   \/ (Year a = Year b /\ rank_leb (Rank a) (Rank b) = true))
       (App.raw_table dff)
  /\ App1.raw_table dff = App.raw_table dff.
Proof.
  split; [apply sort_perm|]. split; [|reflexivity].
  apply (StronglySorted_weaken (fun a b => year_rank_leb a b = true)).
  - intros a b. apply year_rank_leb_true.
  - unfold App.raw_table.
    apply (sort_sorted year_rank_leb (fun _ _ => True)).
    + auto.
    + intros x y H.
      destruct (year_rank_leb y x) eqn:E; [reflexivity|].
      exfalso. unfold year_rank_leb in H, E.
      apply orb_false_iff in H, E. destruct H as [H1 H2], E as [E1 E2].
      apply Z.ltb_ge in H1, E1.
      assert (Hy : Year x = Year y) by lia.
      rewrite Hy, Z.eqb_refl in H2, E2. simpl in H2, E2.
      apply rank_leb_total in H2. congruence.
    + intros x y z Hxy _ Hyz.
      apply year_rank_leb_true in Hxy, Hyz. apply year_rank_leb_true.
      destruct Hxy as [Hxy|[Hxy Rxy]], Hyz as [Hyz|[Hyz Ryz]];
        try (left; lia).
      right. split; [lia|]. exact (rank_leb_trans _ _ _ Rxy Ryz).
    + apply StronglySorted_True.
Qed.

Lemma firstn_incl {A : Type} (n m : nat) (l : list A) :
  (n <= m)%nat -> incl (firstn n l) (firstn m l).
Proof.
  revert m l. induction n as [|n IH]; intros m l H a Ha; [destruct Ha|].
  destruct m as [|m]; [lia|]. destruct l as [|x l]; [destruct Ha|].
  simpl in *. destruct Ha as [<-|Ha]; [now left|].
  right. apply (IH m l); [lia|exact Ha].
Qed.

Lemma nlargest_monotone {A : Type} (by_ : A -> Z) (n m : Z) (l : list A) :
  n <= m -> incl (nlargest by_ n l) (nlargest by_ m l).
Proof.
  intros H a. unfold nlargest.
  destruct (n <=? 0) eqn:En; [intros []|].
  apply Z.leb_gt in En.
  destruct (m <=? 0) eqn:Em; [apply Z.leb_le in Em; lia|].
  apply firstn_incl. lia.
Qed.

Lemma nlargest_all {A : Type} (by_ : A -> Z) (n : Z) (l : list A) :
  0 < n -> Z.of_nat (List.length l) <= n ->
  Permutation (nlargest by_ n l) l.
Proof.
  intros H0 H. unfold nlargest.
  destruct (n <=? 0) eqn:E; [apply Z.leb_le in E; lia|].
  rewrite firstn_all2; [apply sort_values_perm|].
  rewrite (Permutation_length (sort_values_perm by_ false l)). lia.
Qed.

(** Raising the slider "Top N" only adds bars to chart 1: the bars of a
    smaller size are among those of a larger size; and a size that
    reaches the number of countries shows every country with its sum. *)
Theorem top_df_monotone (mt : MedalType) (n m : Z) (dff : DataFrame) :
  (n <= m -> incl (App.top_df mt n dff) (App.top_df mt m dff)
             /\ incl (App.top_names n dff) (App.top_names m dff))
  /\ (0 < n -> Z.of_nat (App.total_nations dff) <= n ->
      Permutation (App.top_df mt n dff) (sum_by_country (column mt) dff))
  /\ App1.bar_df mt n dff = App.top_df mt n dff.
Proof.
  split; [|split; [|reflexivity]].
  - intros H. split.
    + intros e He. unfold App.top_df in *.
      apply (Permutation_in _ (sort_values_perm snd true _)) in He.
      apply (Permutation_in _ (Permutation_sym (sort_values_perm snd true _))).
      exact (nlargest_monotone snd n m _ H e He).
    + unfold App.top_names. intros c Hc. apply in_map_iff in Hc.
      destruct Hc as (e & <- & He). apply in_map.
      exact (nlargest_monotone snd n m _ H e He).
  - intros H0 H. unfold App.top_df.
    rewrite (sort_values_perm snd true _).
    apply nlargest_all; [exact H0|].
    now rewrite sum_by_country_length.
Qed.

(** The two counting KPIs: "Olympic Games" counts the years of the
    filtered table, which are the options the year slider would have
    over it; "Nations" counts its countries, one per sum by country;
    neither exceeds the number of rows. *)
Theorem kpi_counts (col : Row -> option Z) (dff : DataFrame) :
  App.total_games dff = List.length (App.years dff)
  /\ App.total_nations dff = List.length (sum_by_country col dff)
  /\ (App.total_games dff <= List.length dff)%nat
  /\ (App.total_nations dff <= List.length dff)%nat
  /\ App1.k1 dff = App.total_games dff
  /\ App1.k2 dff = App.total_nations dff.
Proof.
  assert (Hd : forall (A : Type) (f : Row -> A) (l : DataFrame),
             dropna (map (fun r => Some (f r)) l) = map f l).
  { intros A f l. unfold dropna. induction l as [|r l IH]; simpl;
      [reflexivity|]. now rewrite IH. }
  assert (Hn : forall (A : Type) (dec : forall x y : A, {x = y} + {x <> y})
                 (l : list A),
             (List.length (nodup dec l) <= List.length l)%nat).
  { intros A dec l. induction l as [|a l IH]; simpl; [lia|].
    destruct (in_dec dec a l); simpl; lia. }
  split; [|split; [|split; [|split; [|split; reflexivity]]]].
  - unfold App.total_games, nunique, App.years. rewrite Hd.
    symmetry. apply (unique_sorted_length Z.compare Z.compare_eq_iff
                       Z_compare_gt Z_compare_trans).
  - symmetry. apply sum_by_country_length.
  - unfold App.total_games, nunique. rewrite Hd.
    etransitivity; [apply Hn|]. now rewrite length_map.
  - unfold App.total_nations, nunique.
    etransitivity; [apply Hn|].
    unfold dropna. clear. induction dff as [|r l IH]; simpl; [lia|].
    destruct (Country r); simpl; lia.
Qed.

(* ================================================================== *)
(** * The options of the multiselect *)

Lemma forallb_notna_Country (df : DataFrame) :
  forallb (fun r => notna (Country r)) df = true <-> no_missing_country df.
Proof.
  unfold no_missing_country. rewrite forallb_forall, Forall_forall. tauto.
Qed.

Lemma missing_country_row (df : DataFrame) :
  forallb (fun r => notna (Country r)) df = false <->
  exists r, In r df /\ Country r = None.
Proof.
  induction df as [|r df IH]; simpl.
  - split; [discriminate|]. intros (r & [] & _).
  - destruct (Country r) as [c|] eqn:Hc; simpl.
    + rewrite IH. split.
      * intros (x & Hx & Hn). eauto.
      * intros (x & [<-|Hx] & Hn); [congruence|eauto].
    + split; [|reflexivity]. intros _. exists r. auto.
Qed.



(** The options of the multiselect of app.py, on the table its
    [load_data] returns: computing them fails exactly when the file has a
    row without a country besides a row with one; when no country is
    missing they are the countries of the file, each once, in the order
    of their names. *)
Theorem App_all_countries_error (csv : list Raw.Row) (df : DataFrame) :
  App.load_data csv = Ok df ->
  (App.all_countries df = None <->
   (exists r, In r csv /\ Raw.Country r = None)
   /\ (exists r c, In r csv /\ Raw.Country r = Some c))
  /\ ((forall r, In r csv -> Raw.Country r <> None) ->
      exists names,
        App.all_countries df = Some (map Some names)
        /\ StronglySorted (fun a b => str_cmp a b = Lt) names
        /\ forall c, In c names <->
                     exists r, In r csv /\ Raw.Country r = Some c).
Proof.
  intros Hdf. unfold App.load_data in Hdf.
  destruct (astype_int_columns csv df Hdf) as (_ & Hcol & _).
  assert (Hin : forall o, (exists r, In r df /\ Country r = o) <->
                          (exists r, In r csv /\ Raw.Country r = o)).
  { intros o. split; intros (r & Hr & Ho).
    - assert (H : In o (map Raw.Country csv)).
      { rewrite <- Hcol. apply in_map_iff. eauto. }
      apply in_map_iff in H. destruct H as (x & Hx & Hxin). eauto.
    - assert (H : In o (map Country df)).
      { rewrite Hcol. apply in_map_iff. eauto. }
      apply in_map_iff in H. destruct H as (x & Hx & Hxin). eauto. }
  assert (Hmem : forall c,
             In c (unique_sorted str_cmp (keys_of Country df)) <->
             exists r, In r csv /\ Raw.Country r = Some c).
  { intros c. rewrite unique_sorted_In by str_order.
    rewrite keys_of_In. apply Hin. }
  split.
  - unfold App.all_countries.
    destruct (forallb (fun r => notna (Country r)) df) eqn:Hall.
    + split; [discriminate|]. intros [Hnone _].
      apply (proj2 (Hin None)) in Hnone.
      apply (proj2 (missing_country_row df)) in Hnone. congruence.
    + apply (proj1 (missing_country_row df)) in Hall.
      apply (proj1 (Hin None)) in Hall.
      destruct (unique_sorted str_cmp (keys_of Country df)) as [|c l] eqn:E.
      * split; [discriminate|]. intros [_ (r & c & Hr & Hc)].
        assert (H : In c []) by (apply (proj2 (Hmem c)); eauto).
        destruct H.
      * split; [|reflexivity]. intros _. split; [exact Hall|].
        destruct (proj1 (Hmem c) (or_introl eq_refl)) as (r & Hr & Hc).
        eauto.
  - intros Hno.
    exists (unique_sorted str_cmp (keys_of Country df)).
    split; [|split; [apply unique_sorted_sorted; str_order|exact Hmem]].
    unfold App.all_countries.
    destruct (forallb (fun r => notna (Country r)) df) eqn:Hall;
      [reflexivity|].
    apply (proj1 (missing_country_row df)) in Hall.
    apply (proj1 (Hin None)) in Hall. destruct Hall as (r & Hr & Hn).
    now destruct (Hno r Hr).
Qed.

Lemma App_all_countries_error_witness :
  App.load_data example_csv = Ok example_df
  /\ exists names,
       App.all_countries example_df = Some (map Some names)
       /\ StronglySorted (fun a b => str_cmp a b = Lt) names
       /\ forall c, In c names <->
                    exists r, In r example_csv /\ Raw.Country r = Some c.
Proof.
  split; [reflexivity|].
  apply (proj2 (App_all_countries_error example_csv example_df eq_refl)).
  intros r Hr. simpl in Hr.
  destruct Hr as [<-|[<-|[<-|[]]]]; discriminate.
Defined.

(* ================================================================== *)
(** * [load_data] on any [Year] column *)




Lemma cast_rows (l : list Csv.Row) :
  forall df, Csv.cast l = Ok df ->
  forall row,
    In row df <->
    exists r y, In r l /\ Csv.year_value (Csv.Year r) = Some y
                /\ row = Csv.with_year r y.
Proof.
  induction l as [|r l IH]; simpl; intros df H row.
  - injection H as <-. split; [intros []|intros (r & y & [] & _)].
  - destruct (Csv.year_value (Csv.Year r)) as [y|] eqn:Hy; [|discriminate H].
    destruct (Csv.cast l) as [df'|e] eqn:E; simpl in H; [|discriminate H].
    injection H as <-. simpl. rewrite (IH df' eq_refl row). split.
    + intros [<-|(r' & y' & H1 & H2 & H3)]; [exists r, y; auto|].
      exists r', y'. auto.
    + intros (r' & y' & [<-|H1] & H2 & H3).
      * left. congruence.
      * right. exists r', y'. auto.
Qed.



Lemma existsb_is_text (l : list Csv.Row) :
  existsb (fun r => Csv.is_text (Csv.Year r)) l = true <->
  exists r s, In r l /\ Csv.Year r = Csv.Text s.
Proof.
  rewrite existsb_exists. split.
  - intros (r & Hr & Ht). destruct (Csv.Year r) as [| | |s] eqn:E;
      try discriminate. eauto.
  - intros (r & s & Hr & E). exists r. now rewrite E.
Qed.

(** After [pd.to_numeric] the column holds no text. *)
Lemma csv_cleaned_no_text (csv : list Csv.Row) :
  existsb (fun r => Csv.is_text (Csv.Year r)) (csv_cleaned csv) = false.
Proof.
  destruct (existsb _ (csv_cleaned csv)) eqn:E; [|reflexivity].
  apply existsb_is_text in E. destruct E as (r & s & Hr & Hs).
  unfold csv_cleaned in Hr.
  apply filter_In in Hr. destruct Hr as [Hr _].
  apply filter_In in Hr. destruct Hr as [Hr _].
  apply in_map_iff in Hr. destruct Hr as (r1 & <- & Hr).
  apply filter_In in Hr. destruct Hr as [Hr _].
  apply in_map_iff in Hr. destruct Hr as (r0 & <- & Hr).
  simpl in Hs. destruct (Csv.Year r0); discriminate Hs.
Qed.

Lemma App1Csv_load_data_cleaned (csv : list Csv.Row) :
  App1Csv.load_data csv = Csv.cast (csv_cleaned csv).
Proof.
  unfold App1Csv.load_data, Csv.astype_int.
  fold (csv_cleaned csv). now rewrite csv_cleaned_no_text.
Qed.

Lemma csv_cleaned_In (csv : list Csv.Row) (r' : Csv.Row) :
  In r' (csv_cleaned csv) <->
  exists r c, In r csv /\ Csv.Country r = Some c
              /\ Str.isin App1.placeholders (Str.lower (Str.strip c)) = false
              /\ Csv.notna (Csv.to_numeric (Csv.Year r)) = true
              /\ notna (Csv.Medals r) = true
              /\ r' = App1Csv.strip_country (App1Csv.to_numeric r).
Proof.
  unfold csv_cleaned. rewrite filter_In, filter_In, in_map_iff. split.
  - intros [[(r1 & <- & Hr) Hp] Hy].
    apply filter_In in Hr. destruct Hr as [Hr Hc].
    apply in_map_iff in Hr. destruct Hr as (r & <- & Hr).
    cbn [App1Csv.to_numeric Csv.Country] in Hc.
    destruct (Csv.Country r) as [c|] eqn:Ec; [|discriminate Hc].
    exists r, c. apply andb_prop in Hy. simpl in Hy.
    unfold App1Csv.is_placeholder in Hp. simpl in Hp. rewrite Ec in Hp.
    simpl in Hp. apply negb_true_iff in Hp. tauto.
  - intros (r & c & Hr & Ec & Hp & Hy & Hm & ->).
    split; [split|].
    + exists (App1Csv.to_numeric r). split; [reflexivity|].
      apply filter_In. split; [now apply in_map|].
      cbn [App1Csv.to_numeric Csv.Country]. now rewrite Ec.
    + unfold App1Csv.is_placeholder, App1Csv.strip_country,
        App1Csv.to_numeric.
      cbn [Csv.Country]. rewrite Ec. cbn [option_map]. now rewrite Hp.
    + cbn [App1Csv.strip_country App1Csv.to_numeric Csv.Year Csv.Medals].
      now rewrite Hy, Hm.
Qed.

(** Whatever the file holds, the table that the [load_data] of part_000
    returns has no placeholder country: the country of every row is
    present, trimmed, and none of "nan", "none", "", "n/a" once
    lower-cased; and its Medals is present. *)
Theorem App1Csv_load_data_no_placeholder (csv : list Csv.Row)
    (df : DataFrame) :
  App1Csv.load_data csv = Ok df ->
  Forall (fun row =>
            match Country row with
            | Some c =>
                Str.strip c = c
                /\ Str.isin ["nan"; "none"; ""; "n/a"]%string
                     (Str.lower (Str.strip c)) = false
            | None => False
            end
            /\ Medals row <> None) df.
Proof.
  rewrite App1Csv_load_data_cleaned. intros H.
  apply Forall_forall. intros row Hrow.
  apply (proj1 (cast_rows _ _ H row)) in Hrow.
  destruct Hrow as (r' & y & Hr' & _ & ->).
  apply (proj1 (csv_cleaned_In csv r')) in Hr'.
  destruct Hr' as (r & c & _ & Ec & Hp & _ & Hm & ->).
  cbn. rewrite Ec. cbn.
  rewrite StrFacts.strip_idempotent. split; [split; [reflexivity|exact Hp]|].
  intros E. rewrite E in Hm. discriminate Hm.
Qed.

Lemma App1Csv_load_data_no_placeholder_witness :
  App1Csv.load_data csv_messy
  = Ok [row "USA" 2016 1 46 37 38 121; row "KEN" 2012 20 10 12 18 40]
  /\ Forall (fun row =>
               match Country row with
               | Some c =>
                   Str.strip c = c
                   /\ Str.isin ["nan"; "none"; ""; "n/a"]%string
                        (Str.lower (Str.strip c)) = false
               | None => False
               end
               /\ Medals row <> None)
       [row "USA" 2016 1 46 37 38 121; row "KEN" 2012 20 10 12 18 40].
Proof.
  split; [vm_compute; reflexivity|].
  apply (App1Csv_load_data_no_placeholder csv_messy).
  vm_compute. reflexivity.
Defined.



Lemma csv_clean_row (r : Csv.Row) :
  csv_is_clean r = true ->
  App1Csv.to_numeric r = r
  /\ notna (Csv.Country r) = true
  /\ App1Csv.strip_country r = r
  /\ App1Csv.is_placeholder r = false
  /\ Csv.notna (Csv.Year r) && notna (Csv.Medals r) = true.
Proof.
  unfold csv_is_clean. intros Hr.
  apply andb_prop in Hr. destruct Hr as [Hr Hm].
  apply andb_prop in Hr. destruct Hr as [Hr Hy].
  apply andb_prop in Hr. destruct Hr as [Hc Ht].
  destruct r as [[c|] y rk g sv b m]; [|discriminate Hc].
  cbn [Csv.Country Csv.Year Csv.Medals] in *.
  apply andb_prop in Hc. destruct Hc as [Hs Hp].
  apply String.eqb_eq in Hs. apply negb_true_iff in Hp.
  unfold App1Csv.to_numeric, App1Csv.strip_country, App1Csv.is_placeholder.
  cbn [Csv.Country Csv.Year Csv.Rank Csv.Golds Csv.Silvers Csv.Bronzes
         Csv.Medals option_map].
  rewrite Hs, Hp, Hy, Hm.
  assert (Ey : Csv.to_numeric y = y)
    by (destruct y; try reflexivity; discriminate Ht).
  rewrite Ey. repeat split.
Qed.

Lemma csv_cleaned_clean (csv : list Csv.Row) :
  forallb csv_is_clean csv = true -> csv_cleaned csv = csv.
Proof.
  unfold csv_cleaned. induction csv as [|r l IH]; [reflexivity|].
  intros H. cbn [forallb] in H.
  apply andb_prop in H. destruct H as [Hr Hl].
  destruct (csv_clean_row r Hr) as (H1 & H2 & H3 & H4 & H5).
  cbn [map]. rewrite H1. cbn [filter]. rewrite H2.
  cbn [map]. rewrite H3. cbn [filter]. rewrite H4. cbn [negb].
  cbn [filter]. rewrite H5. f_equal. now apply IH.
Qed.

(** On a file that is clean already the two dashboards load the same
    table, or fail alike: the cleaning of part_000 leaves every row as
    it is. *)
Theorem load_data_agree_on_clean_file (csv : list Csv.Row) :
  forallb csv_is_clean csv = true ->
  App1Csv.load_data csv = AppCsv.load_data csv.
Proof.
  intros H. rewrite App1Csv_load_data_cleaned, (csv_cleaned_clean csv H).
  unfold AppCsv.load_data, Csv.astype_int.
  replace (existsb (fun r => Csv.is_text (Csv.Year r)) csv) with false;
    [reflexivity|].
  symmetry. rewrite <- (csv_cleaned_clean csv H) at 1.
  apply csv_cleaned_no_text.
Qed.

Lemma load_data_agree_on_clean_file_witness :
  App1Csv.load_data csv_tidy = AppCsv.load_data csv_tidy.
Proof.
  apply (load_data_agree_on_clean_file csv_tidy). vm_compute. reflexivity.
Defined.

Lemma filter_through_map {A B : Type} (f : A -> B) (p : B -> bool)
    (q : A -> bool) (l : list A) :
  (forall x, p (f x) = q x) -> filter p (map f l) = map f (filter q l).
Proof.
  intros H. induction l as [|x l IH]; simpl; [reflexivity|].
  rewrite H. destruct (q x); simpl; now rewrite IH.
Qed.

Lemma csv_cleaned_of_raw (csv : list Raw.Row) :
  csv_cleaned (map Csv.of_raw csv) = map Csv.of_raw (cleaned csv).
Proof.
  unfold csv_cleaned, cleaned.
  rewrite map_map.
  rewrite (map_ext (fun r => App1Csv.to_numeric (Csv.of_raw r)) Csv.of_raw)
    by (intros [c [y|] rk g sv b m]; reflexivity).
  rewrite (filter_through_map Csv.of_raw _
             (fun r => notna (Raw.Country r))) by reflexivity.
  rewrite map_map.
  rewrite (map_ext (fun r => App1Csv.strip_country (Csv.of_raw r))
             (fun r => Csv.of_raw (App1.strip_country r)))
    by reflexivity.
  rewrite <- (map_map App1.strip_country Csv.of_raw).
  rewrite (filter_through_map Csv.of_raw _
             (fun r => negb (App1.is_placeholder r))) by reflexivity.
  apply filter_through_map.
  intros [c [y|] rk g sv b m]; reflexivity.
Qed.

(** On a file whose Year fields are integers or empty, the two
    [load_data] are those of the tables above. *)
Lemma load_data_of_raw (csv : list Raw.Row) :
  AppCsv.load_data (map Csv.of_raw csv) = App.load_data csv
  /\ App1Csv.load_data (map Csv.of_raw csv) = App1.load_data csv.
Proof.
  assert (Hcast : forall l, Csv.cast (map Csv.of_raw l) = astype_int l).
  { induction l as [|r l IH]; simpl; [reflexivity|].
    destruct (Raw.Year r) as [y|]; simpl; [|reflexivity].
    rewrite IH. reflexivity. }
  assert (Htext : forall l,
             existsb (fun r => Csv.is_text (Csv.Year r)) (map Csv.of_raw l)
             = false).
  { induction l as [|r l IH]; simpl; [reflexivity|].
    rewrite IH. now destruct (Raw.Year r). }
  split.
  - unfold AppCsv.load_data, App.load_data, Csv.astype_int.
    now rewrite Htext, Hcast.
  - rewrite App1Csv_load_data_cleaned, App1_load_data_cleaned.
    now rewrite csv_cleaned_of_raw, Hcast.
Qed.
